(** * atom3d, examples/cnn3d/train_ppi.py: the training and evaluation loop

    A shallow embedding of [train_model] and of its inner functions
    ([__loop], [_save], [__update_and_write_run_info]) together with
    [batch_dataset_generator].

    Conventions.
    - Python [int]s are [Z]; a value that may be [None] is an [option].
    - Python [float]s are idealised as exact rationals ([Q]); the value
      [float("inf")] is the constructor [Inf] of [ELoss].  Statements about
      float results are therefore statements in exact arithmetic, up to [Qeq].
    - The TensorFlow graph, the optimizer, the example generator and the
      sharded dataset live in other modules: they are the fields of the
      record [Collaborators], and every definition is parametrised by it.
    - Exceptions are values of [Error]; the interpreter state that survives an
      exception (files written, checkpoints, the log of calls) is kept. *)

From Stdlib Require Import ZArith QArith List String Bool Lia Lqa DecimalString.
From Stdlib Require Import DecimalZ DecimalPos.
Import ListNotations.

Set Implicit Arguments.
Open Scope Z_scope.

(** ** Values *)

(** The [mode] argument of [__loop]: the strings 'train', 'val', 'test'. *)
Inductive Mode := train | val | test.

Definition mode_eqb (a b : Mode) : bool :=
  match a, b with
  | train, train | val, val | test, test => true
  | _, _ => false
  end.

(** The exceptions that can leave [train_model]. *)
Inductive Error :=
| AssertionError
| UnboundLocalError (var : string)
| KeyError (key : string)
| FileNotFoundError (path : string)
| NotFoundError (ckpt : string)
| TypeError
| ZeroDivisionError
| InvalidArgumentError.

Inductive Result (A : Type) :=
| Ok (a : A)
| Err (e : Error).
Arguments Ok {A} a.
Arguments Err {A} e.

(** A loss compared against [float("inf")]. *)
Inductive ELoss :=
| Fin (q : Q)
| Inf.

(** [Qlt_bool a b] is [a < b] on rationals. *)
Definition Qlt_bool (a b : Q) : bool := negb (Qle_bool b a).

(** [curr < bound], with [bound] possibly infinite. *)
Definition loss_lt (curr : Q) (bound : ELoss) : bool :=
  match bound with
  | Inf => true
  | Fin b => Qlt_bool curr b
  end.

(** [curr >= bound], with [bound] possibly infinite. *)
Definition loss_ge (curr : Q) (bound : ELoss) : bool :=
  match bound with
  | Inf => false
  | Fin b => Qle_bool b curr
  end.

(** [os.path.join] on a directory and a relative name. *)
Definition path_join (dir name : string) : string := (dir ++ "/" ++ name)%string.

(** ['{:}'.format(n)] for an integer. *)
Definition format_int (n : Z) : string := NilZero.string_of_int (Z.to_int n).

(** [np.mean] of a one-column array; [Qdiv] by zero is zero, where numpy
    gives nan on an empty array (a batch is never empty). *)
Definition Qsum (l : list Q) : Q := fold_right Qplus 0%Q l.

Definition np_mean (l : list Q) : Q :=
  (Qsum l / inject_Z (Z.of_nat (List.length l)))%Q.

(** The values of [run_info], a dict dumped as JSON. *)
Inductive Json :=
| JLosses (l : list Q)
| JNum (q : Q)
| JStr (s : string).

Definition RunInfo := list (string * Json).

Fixpoint dict_get (d : RunInfo) (k : string) : option Json :=
  match d with
  | [] => None
  | (k', v) :: d' => if String.eqb k k' then Some v else dict_get d' k
  end.

(** [d[k] = v]: replaces the value in place, or appends a new key. *)
Fixpoint dict_set (d : RunInfo) (k : string) (v : Json) : RunInfo :=
  match d with
  | [] => [(k, v)]
  | (k', v') :: d' =>
      if String.eqb k k' then (k, v) :: d' else (k', v') :: dict_set d' k v
  end.

(** Files as an association list from path to content; a write shadows. *)
Fixpoint file_get {A} (fs : list (string * A)) (p : string) : option A :=
  match fs with
  | [] => None
  | (p', a) :: fs' => if String.eqb p p' then Some a else file_get fs' p
  end.

(** ** Exceptions over a persistent state *)

(** A computation over a state [W] that returns or raises; the state reached
    when an exception is raised is kept. *)
Definition M (W A : Type) : Type := W -> Result A * W.

Definition ret {W A} (a : A) : M W A := fun w => (Ok a, w).

Definition raise {W A} (e : Error) : M W A := fun w => (Err e, w).

Definition bind {W A B} (c : M W A) (k : A -> M W B) : M W B :=
  fun w =>
    match c w with
    | (Ok a, w') => k a w'
    | (Err e, w') => (Err e, w')
    end.

Definition lift {W A} (r : Result A) : M W A := fun w => (r, w).

Definition modify {W} (f : W -> W) : M W unit := fun w => (Ok tt, f w).

Declare Scope monad_scope.
Delimit Scope monad_scope with monad.
Notation "x <- c ;; k" := (bind c (fun x => k))
  (at level 61, c at next level, right associativity) : monad_scope.
Notation "c ;; k" := (bind c (fun _ => k))
  (at level 61, right associativity) : monad_scope.

(** [range(a, b)] *)
Definition range (a b : Z) : list Z :=
  map (fun k => a + Z.of_nat k) (seq 0 (Z.to_nat (b - a))).

(** ** Configuration: the parsed command line *)

(** [feature_ppi.grid_config], with the fields [main] attaches to it. *)
Record GridConfig := {
  max_pos_regions_per_ensemble : Z;
  max_pos_regions_per_ensemble_testing : Z;
  neg_to_pos_ratio : Z;
  neg_to_pos_ratio_testing : Z;
  full_test : bool
}.

Section TrainPPI.

(** The voxel tensors, the model variables and the sharded dataset handle. *)
Context {Feature Params Sharded : Type}.

(** The arguments read by [train_model] and its inner functions.  The
    hyper-parameters consumed only while the graph is built ([num_conv],
    [learning_rate], [use_batch_norm], ...) are part of [Collaborators]. *)
Record Args := {
  train_sharded : Sharded;
  val_sharded : Sharded;
  test_sharded : Sharded;
  output_dir : string;
  model_dir : string;
  max_num_ensembles_train : option Z;
  max_num_ensembles_val : option Z;
  max_num_ensembles_test : option Z;
  conv_drop_rate : Q;
  fc_drop_rate : Q;
  top_nn_drop_rate : Q;
  num_epochs : Z;
  repeat_gen : Z;
  batch_size : Z;
  shuffle : bool;
  early_stopping : bool;
  use_best : bool;
  random_seed : Z;
  save_all_ckpts : bool;
  test_only : bool;
  use_shard_nums : option (list Z);
  grid_config : GridConfig
}.

(** One element of the example stream. *)
Record Example := {
  ex_structure : string;
  ex_feature : Feature;
  ex_label : Z
}.

(** A batch as [sess.run(next_element)] returns it; its three arrays are the
    columns below. *)
Definition Batch := list Example.
Definition structure_ (b : Batch) : list string := map ex_structure b.
Definition feature_ (b : Batch) : list Feature := map ex_feature b.
Definition label_ (b : Batch) : list Z := map ex_label b.

(** The [feed_dict] of the second [sess.run] of [__loop]. *)
Record Feed := {
  feature_placeholder : list Feature;
  label_placeholder : list Z;
  training_placeholder : bool;
  conv_drop_rate_placeholder : Q;
  fc_drop_rate_placeholder : Q;
  top_nn_drop_rate_placeholder : Q
}.

(** The operations of the graph that [__loop] fetches. *)
Inductive Op := train_op | logits_op | predict_op | loss_op | accuracy_op.

Definition is_train_op (o : Op) : bool :=
  match o with train_op => true | _ => false end.

(** What the four value-producing operations return for one batch, one entry
    per example. *)
Record Fetched := {
  logit : list Q;
  pred : list Z;
  loss : list Q;
  accuracy : list Q
}.

(** The keyword arguments of a [feature_ppi.dataset_generator] partial. *)
Record GenCall := {
  g_sharded : Sharded;
  g_grid_config : GridConfig;
  g_shuffle : bool;
  g_repeat : Z;
  g_max_num_ensembles : option Z;
  g_testing : bool;
  g_use_shard_nums : option (list Z);
  g_random_seed : Z
}.

(** The code of the repository and of TensorFlow that [train_ppi.py] calls. *)
Record Collaborators := {
  (** [Sharded.get_num_keyed] *)
  get_num_keyed : Sharded -> Z;
  (** one pass of [feature_ppi.dataset_generator] *)
  dataset_generator : GenCall -> list Example;
  (** [tf.contrib.data.shuffle_and_repeat(buffer_size=1000)]: the k-th
      element of the shuffled, repeated dataset *)
  shuffle_and_repeat : list Example -> nat -> option Example;
  (** [tf.global_variables_initializer()] *)
  init : Params;
  (** the effect of running [model.training(loss_op, learning_rate)] once *)
  minimize : Params -> Feed -> Params;
  (** [conv_model]: logits, rounded predictions, losses and accuracies *)
  conv_model : Params -> Feed -> Fetched
}.

Variable C : Collaborators.

(** ** The session *)

(** [sess.run(fetches, feed_dict)]: the variables change exactly when the
    optimizer operation is among the fetches. *)
Definition sess_run (fetches : list Op) (fd : Feed) (p : Params)
  : Params * Fetched :=
  (if existsb is_train_op fetches then minimize C p fd else p,
   conv_model C p fd).

(** ** [batch_dataset_generator] *)

(** The dataset before batching: one pass when testing, repeated for ever
    otherwise (a repeat of an empty dataset ends at once). *)
Definition dataset_elements (gen : list Example) (args : Args)
    (is_testing : bool) : nat -> option Example :=
  if negb is_testing then
    if shuffle args then
      fun k => match gen with
               | [] => None
               | _ => nth_error gen (k mod List.length gen)%nat
               end
    else shuffle_and_repeat C gen
  else nth_error gen.

(** Up to [n] consecutive elements from position [start]. *)
Fixpoint take_elements (elems : nat -> option Example) (start n : nat)
  : list Example :=
  match n with
  | O => []
  | S n' =>
      match elems start with
      | None => []
      | Some e => e :: take_elements elems (S start) n'
      end
  end.

(** [dataset.batch(batch_size)]: the i-th batch; the last batch of a finite
    dataset may be short, and there is no empty batch. *)
Definition dataset_batch (bs : nat) (elems : nat -> option Example)
  : nat -> option Batch :=
  fun i =>
    match take_elements elems (i * bs) bs with
    | [] => None
    | b => Some b
    end.

(** The one-shot iterator: the i-th [sess.run(next_element)] gives the i-th
    batch, or raises [OutOfRangeError] ([None]).  Prefetching is not
    observable. *)
Definition batch_dataset_generator (gen : list Example) (args : Args)
    (is_testing : bool) : nat -> option Batch :=
  dataset_batch (Z.to_nat (batch_size args))
                (dataset_elements gen args is_testing).

(** ** [__loop] *)

(** The local variables of [__loop]; [t_n] is the counter of the progress
    bar.  [accuracies] is not in the source: it keeps the fetched accuracy
    arrays the way [losses] keeps the fetched losses, to state what
    [epoch_acc] is the mean of. *)
Record LoopState := {
  structures : list string;
  losses : list (list Q);
  logits : list Q;
  preds : list Z;
  labels : list Z;
  epoch_loss : Q;
  epoch_acc : Q;
  t_n : nat;
  accuracies : list (list Q)
}.

Definition loop_init : LoopState :=
  {| structures := []; losses := []; logits := []; preds := []; labels := [];
     epoch_loss := 0; epoch_acc := 0; t_n := 0; accuracies := [] |}.

(** [num_batches = int(math.ceil(float(num_iters)/args.batch_size))], for a
    non-zero batch size. *)
Definition num_batches (num_iters bs : Z) : Z := - ((- num_iters) / bs).

(** The feed of one batch. *)
Definition feed_dict (args : Args) (mode : Mode) (b : Batch) : Feed :=
  {| feature_placeholder := feature_ b;
     label_placeholder := label_ b;
     training_placeholder := mode_eqb mode train;
     conv_drop_rate_placeholder :=
       if mode_eqb mode train then conv_drop_rate args else 0%Q;
     fc_drop_rate_placeholder :=
       if mode_eqb mode train then fc_drop_rate args else 0%Q;
     top_nn_drop_rate_placeholder :=
       if mode_eqb mode train then top_nn_drop_rate args else 0%Q |}.

(** [mean += (value - mean) / (i + 1)] *)
Definition incr_mean (mean value : Q) (i : nat) : Q :=
  (mean + (value - mean) / inject_Z (Z.of_nat i + 1))%Q.

(** The statements of the [try] block after the two [sess.run]. *)
Definition accumulate (i : nat) (b : Batch) (out : Fetched) (st : LoopState)
  : LoopState :=
  {| structures := structures st ++ structure_ b;
     losses := losses st ++ [loss out];
     logits := logits st ++ logit out;
     preds := preds st ++ pred out;
     labels := labels st ++ label_ b;
     epoch_loss := incr_mean (epoch_loss st) (np_mean (loss out)) i;
     epoch_acc := incr_mean (epoch_acc st) (np_mean (accuracy out)) i;
     t_n := S (t_n st);
     accuracies := accuracies st ++ [accuracy out] |}.

(** [for i in range(num_batches)], from index [i] with [n] iterations left;
    the end of the dataset breaks out of the loop. *)
Fixpoint for_batches (args : Args) (mode : Mode)
    (next_element : nat -> option Batch) (n i : nat) (p : Params)
    (st : LoopState) : Params * LoopState :=
  match n with
  | O => (p, st)
  | S n' =>
      match next_element i with
      | None => (p, st)
      | Some b =>
          let '(p', out) :=
            sess_run [train_op; logits_op; predict_op; loss_op; accuracy_op]
                     (feed_dict args mode b) p in
          for_batches args mode next_element n' (S i) p' (accumulate i b out st)
      end
  end.

(** What [__loop] returns: [structures, logits, preds, labels, losses,
    epoch_loss] after [__concatenate]. *)
Record LoopResult := {
  r_structures : list string;
  r_logits : list Q;
  r_preds : list Z;
  r_labels : list Z;
  r_losses : list Q;
  r_epoch_loss : Q
}.

Definition loop_result (st : LoopState) : LoopResult :=
  {| r_structures := structures st;
     r_logits := logits st;
     r_preds := preds st;
     r_labels := labels st;
     r_losses := List.concat (losses st);
     r_epoch_loss := epoch_loss st |}.

(** The body of [__loop] on the session variables [p]: the final variables
    and the final locals.  A zero batch size divides by zero; a negative one
    is refused by the dataset when the first batch is asked for. *)
Definition loop_run (args : Args) (gen : list Example) (mode : Mode)
    (num_iters : Z) (p : Params) : Result (Params * LoopState) :=
  let next_element := batch_dataset_generator gen args (mode_eqb mode test) in
  if batch_size args =? 0 then Err ZeroDivisionError
  else
    let n := num_batches num_iters (batch_size args) in
    if (batch_size args <? 0) && (0 <? n) then Err InvalidArgumentError
    else Ok (for_batches args mode next_element (Z.to_nat n) 0 p loop_init).

(** ** The state outside the Python locals *)

(** A row of a result table: the columns built from the four arrays (the
    columns [ensemble], [res0], [res1] derived from [structure] are left
    out). *)
Record Row := {
  row_structure : string;
  row_true : Z;
  row_pred : Z;
  row_logits : Q
}.

(** [pd.DataFrame(np.array([structures, labels, preds, logits]).T, ...)] *)
Fixpoint data_frame (ss : list string) (ts ps : list Z) (ls : list Q)
  : list Row :=
  match ss, ts, ps, ls with
  | s :: ss', t :: ts', p :: ps', l :: ls' =>
      {| row_structure := s; row_true := t; row_pred := p; row_logits := l |}
        :: data_frame ss' ts' ps' ls'
  | _, _, _, _ => []
  end.

(** What a run leaves behind, in the order it happened. *)
Inductive Event :=
| LoopCall (mode : Mode) (num_iters : Z)
| Saved (ckpt : string)
| Restored (ckpt : string)
| Stats (name : string).

(** The session variables, the files and the log of calls. *)
Record World := {
  sess : Params;
  ckpt_files : list (string * Params);
  run_info_files : list (string * RunInfo);
  result_files : list (string * list Row);
  events : list Event
}.

Definition set_sess (p : Params) (w : World) : World :=
  {| sess := p; ckpt_files := ckpt_files w;
     run_info_files := run_info_files w; result_files := result_files w;
     events := events w |}.

Definition write_ckpt (path : string) (w : World) : World :=
  {| sess := sess w; ckpt_files := (path, sess w) :: ckpt_files w;
     run_info_files := run_info_files w; result_files := result_files w;
     events := events w |}.

Definition write_run_info (path : string) (ri : RunInfo) (w : World) : World :=
  {| sess := sess w; ckpt_files := ckpt_files w;
     run_info_files := (path, ri) :: run_info_files w;
     result_files := result_files w; events := events w |}.

Definition to_pickle (path : string) (df : list Row) (w : World) : World :=
  {| sess := sess w; ckpt_files := ckpt_files w;
     run_info_files := run_info_files w;
     result_files := (path, df) :: result_files w; events := events w |}.

Definition record (e : Event) (w : World) : World :=
  {| sess := sess w; ckpt_files := ckpt_files w;
     run_info_files := run_info_files w; result_files := result_files w;
     events := events w ++ [e] |}.

Local Open Scope monad_scope.

(** [__loop(generator, mode, num_iters)] on the session of the world. *)
Definition __loop (args : Args) (generator : GenCall) (mode : Mode)
    (num_iters : Z) : M World LoopResult :=
  modify (record (LoopCall mode num_iters)) ;;
  fun w =>
    match loop_run args (dataset_generator C generator) mode num_iters
                   (sess w) with
    | Err e => (Err e, w)
    | Ok (p, st) => (Ok (loop_result st), set_sess p w)
    end.

(** [__stats(mode, df)]: the metrics of scikit-learn are outside the model;
    the call is logged. *)
Definition __stats (name : string) (df : list Row) : M World unit :=
  modify (record (Stats name)).

(** ** The training block of [train_model] *)

(** The example counts per epoch for the train and the validation split. *)
Definition train_val_num_structures (args : Args) : Result (Z * Z) :=
  let gc := grid_config args in
  if (max_pos_regions_per_ensemble gc >? 0) && (neg_to_pos_ratio gc >? 0) then
    let multiplier :=
      max_pos_regions_per_ensemble gc * (1 + neg_to_pos_ratio gc) in
    let train_num_structures :=
      match max_num_ensembles_train args with
      | None => get_num_keyed C (train_sharded args)
      | Some n => n
      end in
    let val_num_structures :=
      match max_num_ensembles_val args with
      | None => get_num_keyed C (val_sharded args)
      | Some n => n
      end in
    Ok (train_num_structures * (repeat_gen args * multiplier),
        val_num_structures * (repeat_gen args * multiplier))
  else Err AssertionError.

(** The locals of [train_model] that the epoch loop and the test block
    share; [ckpt] is [None] while the name is unbound. *)
Record Locals := {
  prev_val_loss : ELoss;
  best_val_loss : ELoss;
  ckpt : option string;
  run_info : RunInfo;
  per_epoch_val_losses : list Q
}.

Definition locals_init : Locals :=
  {| prev_val_loss := Inf; best_val_loss := Inf; ckpt := None;
     run_info := []; per_epoch_val_losses := [] |}.

Definition set_prev_val_loss (x : ELoss) (l : Locals) : Locals :=
  {| prev_val_loss := x; best_val_loss := best_val_loss l; ckpt := ckpt l;
     run_info := run_info l;
     per_epoch_val_losses := per_epoch_val_losses l |}.

Definition set_best_val_loss (x : ELoss) (l : Locals) : Locals :=
  {| prev_val_loss := prev_val_loss l; best_val_loss := x; ckpt := ckpt l;
     run_info := run_info l;
     per_epoch_val_losses := per_epoch_val_losses l |}.

Definition set_ckpt (x : string) (l : Locals) : Locals :=
  {| prev_val_loss := prev_val_loss l; best_val_loss := best_val_loss l;
     ckpt := Some x; run_info := run_info l;
     per_epoch_val_losses := per_epoch_val_losses l |}.

Definition set_run_info (x : RunInfo) (l : Locals) : Locals :=
  {| prev_val_loss := prev_val_loss l; best_val_loss := best_val_loss l;
     ckpt := ckpt l; run_info := x;
     per_epoch_val_losses := per_epoch_val_losses l |}.

Definition append_val_loss (x : Q) (l : Locals) : Locals :=
  {| prev_val_loss := prev_val_loss l; best_val_loss := best_val_loss l;
     ckpt := ckpt l; run_info := run_info l;
     per_epoch_val_losses := per_epoch_val_losses l ++ [x] |}.

(** [_save()]: [saver.save(sess, output_dir/model-ckpt, global_step=epoch)]
    writes the variables and returns the path of the checkpoint. *)
Definition _save (args : Args) (epoch : Z) : M World string :=
  let path :=
    (path_join (output_dir args) "model-ckpt" ++ "-" ++ format_int epoch)%string
  in
  modify (write_ckpt path) ;;
  modify (record (Saved path)) ;;
  ret path.

(** [__update_and_write_run_info(key, val)] *)
Definition __update_and_write_run_info (args : Args) (key : string)
    (v : Json) (l : Locals) : M World Locals :=
  let run_info' := dict_set (run_info l) key v in
  modify (write_run_info (path_join (output_dir args) "run_info.json")
                         run_info') ;;
  ret (set_run_info run_info' l).

(** The statements of the epoch body that follow the two loops: the
    checkpoint policy, the result tables and the early-stopping test.  The
    second component tells whether the body ends in [break]. *)
Definition after_loops (args : Args) (epoch : Z)
    (train_res val_res : LoopResult) (l : Locals) : M World (Locals * bool) :=
  let curr_val_loss := r_epoch_loss val_res in
  let l := append_val_loss curr_val_loss l in
  l <- __update_and_write_run_info args "val_losses"
         (JLosses (per_epoch_val_losses l)) l ;;
  l <- (if use_best args || early_stopping args then
          if loss_lt curr_val_loss (best_val_loss l) then
            let l := set_best_val_loss (Fin curr_val_loss) l in
            c <- _save args epoch ;;
            let l := set_ckpt c l in
            l <- __update_and_write_run_info args "val_best_loss"
                   (JNum curr_val_loss) l ;;
            __update_and_write_run_info args "best_ckpt" (JStr c) l
          else ret l
        else ret l) ;;
  l <- (if (epoch =? num_epochs args - 1) && negb (use_best args) then
          c <- _save args epoch ;;
          __update_and_write_run_info args "best_ckpt" (JStr c) (set_ckpt c l)
        else ret l) ;;
  l <- (if save_all_ckpts args then
          c <- _save args epoch ;;
          ret (set_ckpt c l)
        else ret l) ;;
  let train_df :=
    data_frame (r_structures train_res) (r_labels train_res)
               (r_preds train_res) (r_logits train_res) in
  modify (to_pickle
            (path_join (output_dir args)
               ("train_result-" ++ format_int epoch ++ ".pkl")) train_df) ;;
  let val_df :=
    data_frame (r_structures val_res) (r_labels val_res)
               (r_preds val_res) (r_logits val_res) in
  modify (to_pickle
            (path_join (output_dir args)
               ("val_result-" ++ format_int epoch ++ ".pkl")) val_df) ;;
  __stats ("Train Epoch " ++ format_int epoch) train_df ;;
  __stats ("Val Epoch " ++ format_int epoch) val_df ;;
  if early_stopping args && loss_ge curr_val_loss (prev_val_loss l) then
    ret (l, true)
  else
    ret (set_prev_val_loss (Fin curr_val_loss) l, false).

(** The body of [for epoch in range(1, args.num_epochs+1)]. *)
Definition epoch_body (args : Args) (num_structures : Z * Z) (epoch : Z)
    (l : Locals) : M World (Locals * bool) :=
  let train_generator_callable :=
    {| g_sharded := train_sharded args; g_grid_config := grid_config args;
       g_shuffle := shuffle args; g_repeat := repeat_gen args;
       g_max_num_ensembles := max_num_ensembles_train args;
       g_testing := false; g_use_shard_nums := None;
       g_random_seed := random_seed args |} in
  let val_generator_callable :=
    {| g_sharded := val_sharded args; g_grid_config := grid_config args;
       g_shuffle := shuffle args; g_repeat := repeat_gen args;
       g_max_num_ensembles := max_num_ensembles_val args;
       g_testing := false; g_use_shard_nums := None;
       g_random_seed := random_seed args |} in
  train_res <- __loop args train_generator_callable train
                 (fst num_structures) ;;
  val_res <- __loop args val_generator_callable val (snd num_structures) ;;
  after_loops args epoch train_res val_res l.

(** The epoch loop over the epochs still to run. *)
Fixpoint for_epochs (args : Args) (num_structures : Z * Z) (epochs : list Z)
    (l : Locals) : M World Locals :=
  match epochs with
  | [] => ret l
  | epoch :: rest =>
      r <- epoch_body args num_structures epoch l ;;
      if snd r then ret (fst r)
      else for_epochs args num_structures rest (fst r)
  end.

(** The block under [if not args.test_only]. *)
Definition training (args : Args) : M World Locals :=
  num_structures <- lift (train_val_num_structures args) ;;
  for_epochs args num_structures (range 1 (num_epochs args + 1)) locals_init.

(** ** The test block of [train_model] *)

(** [run_info['best_ckpt']] *)
Definition best_ckpt_of (ri : RunInfo) : Result string :=
  match dict_get ri "best_ckpt" with
  | None => Err (KeyError "best_ckpt")
  | Some (JStr c) => Ok c
  | Some _ => Err TypeError
  end.

(** The checkpoint [to_use]; in test-only mode the run info comes from
    [model_dir], and the meta graph of the checkpoint must exist. *)
Definition choose_checkpoint (args : Args) (l : Locals) : M World string :=
  if negb (test_only args) then
    if use_best args then lift (best_ckpt_of (run_info l))
    else
      match ckpt l with
      | Some c => ret c
      | None => raise (UnboundLocalError "ckpt")
      end
  else
    let path := path_join (model_dir args) "run_info.json" in
    fun w =>
      match file_get (run_info_files w) path with
      | None => (Err (FileNotFoundError path), w)
      | Some ri =>
          match best_ckpt_of ri with
          | Err e => (Err e, w)
          | Ok to_use =>
              match file_get (ckpt_files w) to_use with
              | None => (Err (NotFoundError to_use), w)
              | Some _ => (Ok to_use, w)
              end
          end
      end.

(** [saver.restore(sess, to_use)] *)
Definition saver_restore (to_use : string) : M World unit :=
  fun w =>
    match file_get (ckpt_files w) to_use with
    | None => (Err (NotFoundError to_use), w)
    | Some p => (Ok tt, record (Restored to_use) (set_sess p w))
    end.

(** The example count of the test split. *)
Definition test_num_structures (args : Args) : Result Z :=
  let gc := grid_config args in
  if negb (full_test gc)
     && (max_pos_regions_per_ensemble_testing gc >? 0)
     && (neg_to_pos_ratio_testing gc >? 0) then
    let multiplier :=
      max_pos_regions_per_ensemble_testing gc
      * (1 + neg_to_pos_ratio_testing gc) in
    let n :=
      match max_num_ensembles_test args with
      | None => get_num_keyed C (test_sharded args)
      | Some n => n
      end in
    Ok (n * multiplier)
  else Err AssertionError.

(** The statements from [##### Testing] to the end. *)
Definition testing (args : Args) (l : Locals) : M World unit :=
  to_use <- choose_checkpoint args l ;;
  saver_restore to_use ;;
  let test_generator_callable :=
    {| g_sharded := test_sharded args; g_grid_config := grid_config args;
       g_shuffle := shuffle args; g_repeat := 1;
       g_max_num_ensembles := max_num_ensembles_test args;
       g_testing := true; g_use_shard_nums := use_shard_nums args;
       g_random_seed := random_seed args |} in
  n <- lift (test_num_structures args) ;;
  res <- __loop args test_generator_callable test n ;;
  let test_df :=
    data_frame (r_structures res) (r_labels res) (r_preds res)
               (r_logits res) in
  modify (to_pickle (path_join (output_dir args) "test_result.pkl") test_df) ;;
  __stats "Test" test_df.

(** [train_model(sess, args)], after the graph is built. *)
Definition train_model (args : Args) : M World unit :=
  modify (set_sess (init C)) ;;
  l <- (if negb (test_only args) then training args else ret locals_init) ;;
  testing args l.

End TrainPPI.

(** ** Observations on a world and on the arguments *)

(** The loop invocations of a log, in order. *)
Fixpoint loop_calls (es : list Event) : list (Mode * Z) :=
  match es with
  | [] => []
  | LoopCall m n :: es' => (m, n) :: loop_calls es'
  | _ :: es' => loop_calls es'
  end.

(** The checkpoints saved according to a log, in order. *)
Fixpoint saved_ckpts (es : list Event) : list string :=
  match es with
  | [] => []
  | Saved c :: es' => c :: saved_ckpts es'
  | _ :: es' => saved_ckpts es'
  end.

(** The arguments with another value of [--use_best]. *)
Definition with_use_best {Sharded} (b : bool) (a : @Args Sharded) : Args :=
  {| train_sharded := train_sharded a; val_sharded := val_sharded a;
     test_sharded := test_sharded a; output_dir := output_dir a;
     model_dir := model_dir a;
     max_num_ensembles_train := max_num_ensembles_train a;
     max_num_ensembles_val := max_num_ensembles_val a;
     max_num_ensembles_test := max_num_ensembles_test a;
     conv_drop_rate := conv_drop_rate a; fc_drop_rate := fc_drop_rate a;
     top_nn_drop_rate := top_nn_drop_rate a; num_epochs := num_epochs a;
     repeat_gen := repeat_gen a; batch_size := batch_size a;
     shuffle := shuffle a; early_stopping := early_stopping a;
     use_best := b; random_seed := random_seed a;
     save_all_ckpts := save_all_ckpts a; test_only := test_only a;
     use_shard_nums := use_shard_nums a; grid_config := grid_config a |}.

(** The arguments with another [grid_config]. *)
Definition with_grid_config {Sharded} (gc : GridConfig) (a : @Args Sharded)
  : Args :=
  {| train_sharded := train_sharded a; val_sharded := val_sharded a;
     test_sharded := test_sharded a; output_dir := output_dir a;
     model_dir := model_dir a;
     max_num_ensembles_train := max_num_ensembles_train a;
     max_num_ensembles_val := max_num_ensembles_val a;
     max_num_ensembles_test := max_num_ensembles_test a;
     conv_drop_rate := conv_drop_rate a; fc_drop_rate := fc_drop_rate a;
     top_nn_drop_rate := top_nn_drop_rate a; num_epochs := num_epochs a;
     repeat_gen := repeat_gen a; batch_size := batch_size a;
     shuffle := shuffle a; early_stopping := early_stopping a;
     use_best := use_best a; random_seed := random_seed a;
     save_all_ckpts := save_all_ckpts a; test_only := test_only a;
     use_shard_nums := use_shard_nums a; grid_config := gc |}.

(** The arguments with another value of [--test_only]. *)
Definition with_test_only {Sharded} (b : bool) (a : @Args Sharded) : Args :=
  {| train_sharded := train_sharded a; val_sharded := val_sharded a;
     test_sharded := test_sharded a; output_dir := output_dir a;
     model_dir := model_dir a;
     max_num_ensembles_train := max_num_ensembles_train a;
     max_num_ensembles_val := max_num_ensembles_val a;
     max_num_ensembles_test := max_num_ensembles_test a;
     conv_drop_rate := conv_drop_rate a; fc_drop_rate := fc_drop_rate a;
     top_nn_drop_rate := top_nn_drop_rate a; num_epochs := num_epochs a;
     repeat_gen := repeat_gen a; batch_size := batch_size a;
     shuffle := shuffle a; early_stopping := early_stopping a;
     use_best := use_best a; random_seed := random_seed a;
     save_all_ckpts := save_all_ckpts a; test_only := b;
     use_shard_nums := use_shard_nums a; grid_config := grid_config a |}.

(** The number of structures of a split: the cap when it is set, the number
    of keyed entities otherwise. *)
Definition num_structures_of {Feature Params Sharded}
    (C : @Collaborators Feature Params Sharded)
    (max_num_ensembles : option Z) (sharded : Sharded) : Z :=
  match max_num_ensembles with
  | None => get_num_keyed C sharded
  | Some n => n
  end.

(** The effect of the statements after the two loops on the locals alone,
    for a checkpoint path [c] that [_save] would return: what [after_loops]
    computes without the world. *)
Definition after_loops_locals {Sharded} (args : @Args Sharded) (epoch : Z)
    (c : string) (curr_val_loss : Q) (l : Locals) : Locals * bool :=
  let l := append_val_loss curr_val_loss l in
  let l := set_run_info
             (dict_set (run_info l) "val_losses"
                (JLosses (per_epoch_val_losses l))) l in
  let l :=
    if (use_best args || early_stopping args)
       && loss_lt curr_val_loss (best_val_loss l) then
      let l := set_ckpt c (set_best_val_loss (Fin curr_val_loss) l) in
      let l := set_run_info
                 (dict_set (run_info l) "val_best_loss" (JNum curr_val_loss))
                 l in
      set_run_info (dict_set (run_info l) "best_ckpt" (JStr c)) l
    else l in
  let l :=
    if (epoch =? num_epochs args - 1) && negb (use_best args) then
      set_run_info (dict_set (run_info l) "best_ckpt" (JStr c)) (set_ckpt c l)
    else l in
  let l := if save_all_ckpts args then set_ckpt c l else l in
  if early_stopping args && loss_ge curr_val_loss (prev_val_loss l) then
    (l, true)
  else (set_prev_val_loss (Fin curr_val_loss) l, false).

(** The path [_save] returns at an epoch. *)
Definition ckpt_path {Sharded} (args : @Args Sharded) (epoch : Z) : string :=
  (path_join (output_dir args) "model-ckpt" ++ "-" ++ format_int epoch)%string.

(** The accumulators hold the means of the batch values fetched so far. *)
Definition means_hold (st : LoopState) : Prop :=
  List.length (losses st) = t_n st
  /\ List.length (accuracies st) = t_n st
  /\ (epoch_loss st * inject_Z (Z.of_nat (t_n st))
      == Qsum (map np_mean (losses st)))%Q
  /\ (epoch_acc st * inject_Z (Z.of_nat (t_n st))
      == Qsum (map np_mean (accuracies st)))%Q.

(** The best loss after a validation loss [v] when the best-loss branch is
    entered. *)
Definition better (v : Q) (best : ELoss) : ELoss :=
  if loss_lt v best then Fin v else best.

(** [Tracked prev best vs prev' best']: with early stopping, the epochs whose
    validation losses are [vs] take the pair of the previous and the best
    loss from [(prev, best)] to [(prev', best')]; only the last loss of [vs]
    may fail to improve on the one before it. *)
Inductive Tracked : ELoss -> ELoss -> list Q -> ELoss -> ELoss -> Prop :=
| tracked_done prev best : Tracked prev best [] prev best
| tracked_stop prev best v :
    loss_ge v prev = true -> Tracked prev best [v] prev (better v best)
| tracked_next prev best v vs prev' best' :
    loss_ge v prev = false ->
    Tracked (Fin v) (better v best) vs prev' best' ->
    Tracked prev best (v :: vs) prev' best'.

(** ** A small instance of the collaborators *)

Module Toy.

(** The variables are a counter of optimizer steps; a sharded dataset is its
    number of keyed entities; features carry nothing. *)
Definition example (k : Z) : @Example unit :=
  {| ex_structure := ("1abc/" ++ format_int k ++ "/45")%string;
     ex_feature := tt;
     ex_label := k mod 2 |}.

(** The loss of every example after [p] optimizer steps. *)
Definition loss_after (p : Z) : Q :=
  if p <? 2 then 1%Q else if p <? 4 then (8 # 10)%Q else (9 # 10)%Q.

Definition collab : @Collaborators unit Z Z :=
  {| get_num_keyed := fun s => s;
     dataset_generator := fun g => map example (range 0 (g_sharded g));
     shuffle_and_repeat := fun gen k =>
       match gen with
       | [] => None
       | _ => nth_error gen (k mod List.length gen)%nat
       end;
     init := 0;
     minimize := fun p _ => p + 1;
     conv_model := fun p fd =>
       {| logit := map (fun _ => 0%Q) (label_placeholder fd);
          pred := map (fun _ => 0) (label_placeholder fd);
          loss := map (fun _ => loss_after p) (label_placeholder fd);
          accuracy := map (fun y => if y =? 0 then 1%Q else 0%Q)
                          (label_placeholder fd) |} |}.

Definition grid (full : bool) : GridConfig :=
  {| max_pos_regions_per_ensemble := 1;
     max_pos_regions_per_ensemble_testing := 1;
     neg_to_pos_ratio := 1;
     neg_to_pos_ratio_testing := 1;
     full_test := full |}.

(** One structure per split for training and validation, seven for the
    test; two examples per epoch. *)
Definition args (epochs : Z) (stopping : bool) (bs : Z) : @Args Z :=
  {| train_sharded := 1; val_sharded := 1; test_sharded := 7;
     output_dir := "out"; model_dir := "old";
     max_num_ensembles_train := None; max_num_ensembles_val := None;
     max_num_ensembles_test := None;
     conv_drop_rate := (1 # 10)%Q; fc_drop_rate := (1 # 4)%Q;
     top_nn_drop_rate := (1 # 2)%Q;
     num_epochs := epochs; repeat_gen := 1; batch_size := bs;
     shuffle := false; early_stopping := stopping; use_best := false;
     random_seed := 1; save_all_ckpts := false; test_only := false;
     use_shard_nums := None; grid_config := grid false |}.

(** The generator of the test split. *)
Definition test_generator : @GenCall Z :=
  {| g_sharded := 7; g_grid_config := grid false; g_shuffle := false;
     g_repeat := 1; g_max_num_ensembles := None; g_testing := true;
     g_use_shard_nums := None; g_random_seed := 1 |}.

(** The generator of the validation split. *)
Definition val_generator : @GenCall Z :=
  {| g_sharded := 1; g_grid_config := grid false; g_shuffle := false;
     g_repeat := 1; g_max_num_ensembles := None; g_testing := false;
     g_use_shard_nums := None; g_random_seed := 1 |}.

(** A fresh machine: no file yet. *)
Definition world : @World Z :=
  {| sess := 0; ckpt_files := []; run_info_files := []; result_files := [];
     events := [] |}.

(** The sampling values of the default command line: the cap for testing
    defaults to -1. *)
Definition default_grid : GridConfig :=
  {| max_pos_regions_per_ensemble := 70;
     max_pos_regions_per_ensemble_testing := -1;
     neg_to_pos_ratio := 1;
     neg_to_pos_ratio_testing := 1;
     full_test := false |}.

(** A machine on which an earlier run left its files in [old]. *)
Definition trained_world : @World Z :=
  {| sess := 0;
     ckpt_files := [("old/model-ckpt-3"%string, 6);
                    ("old/model-ckpt-4"%string, 8)];
     run_info_files :=
       [("old/run_info.json"%string,
         [("val_losses"%string, JLosses [1%Q; (8 # 10)%Q; (9 # 10)%Q]);
          ("best_ckpt"%string, JStr "old/model-ckpt-3")])];
     result_files := [];
     events := [] |}.

End Toy.

(** ** The rest of the file *)

(** The batches that [for_batches] takes from the iterator in [n]
    iterations from index [i]. *)
Fixpoint consumed {Feature} (next_element : nat -> option (@Batch Feature))
    (n i : nat) : list Batch :=
  match n with
  | O => []
  | S n' =>
      match next_element i with
      | None => []
      | Some b => b :: consumed next_element n' (S i)
      end
  end.



(** [l * k] on a Python list. *)
Definition list_mul {A} (l : list A) (k : Z) : list A :=
  List.concat (repeat l (Z.to_nat k)).

(** The layer sizes that [conv_model] passes to [model.siamese_model];
    [int(x / 2)] truncates the float quotient. *)
Record ConvLayers := {
  conv_filters : list Z;
  conv_kernel_size : Z;
  max_pool_positions : list Z;
  max_pool_sizes : list Z;
  max_pool_strides : list Z;
  fc_units : list Z;
  top_fc_units : list Z
}.

Definition conv_layers (num_conv num_final_fc_layers : Z) : ConvLayers :=
  {| conv_filters := map (fun n => 32 * 2 ^ n) (range 0 num_conv);
     conv_kernel_size := 3;
     max_pool_positions := list_mul [0; 1] (Z.quot (num_conv + 1) 2);
     max_pool_sizes := list_mul [2] num_conv;
     max_pool_strides := list_mul [2] num_conv;
     fc_units := [512];
     top_fc_units := list_mul [512] num_final_fc_layers |}.

Section Loss.

(** [-log(sigmoid(x))] and [-log(1 - sigmoid(x))], which rationals do not
    have. *)
Variables nll_pos nll_neg : Q -> Q.

(** [tf.nn.weighted_cross_entropy_with_logits]:
    [targets * -log(sigmoid(logits)) * pos_weight
     + (1 - targets) * -log(1 - sigmoid(logits))]. *)
Definition weighted_cross_entropy_with_logits (targets logits : list Q)
    (pos_weight : Q) : list Q :=
  map (fun tx => (fst tx * nll_pos (snd tx) * pos_weight
                  + (1 - fst tx) * nll_neg (snd tx))%Q)
      (combine targets logits).

(** [tf.count_nonzero] *)
Definition count_nonzero (target : list Z) : Z :=
  Z.of_nat (List.length (filter (fun t => negb (t =? 0)) target)).

(** The block [with tf.variable_scope('loss')] of [conv_model]. *)
Definition conv_model_loss (target : list Z) (logits : list Q)
    (neg_to_pos_ratio : Z) : list Q :=
  let loss :=
    weighted_cross_entropy_with_logits (map inject_Z target) logits
      (inject_Z neg_to_pos_ratio) in
  let batch_size := inject_Z (Z.of_nat (List.length target)) in
  let num_pos := inject_Z (count_nonzero target) in
  let num_neg := (batch_size - num_pos)%Q in
  let effective_weight :=
    (num_pos * inject_Z neg_to_pos_ratio + num_neg)%Q in
  map (fun l => (l / effective_weight * batch_size)%Q) loss.

End Loss.

(** The validation losses [vs] that an epoch loop with early stopping
    records when [allowed] epochs are left and the previous loss is [prev]:
    it runs up to and including the first epoch whose loss is not below the
    loss before it, or all the epochs. *)
Fixpoint stops_at_first_rise (prev : ELoss) (vs : list Q) (allowed : nat)
  : Prop :=
  match vs, allowed with
  | [], O => True
  | v :: rest, S a =>
      if loss_ge v prev then rest = []
      else stops_at_first_rise (Fin v) rest a
  | _, _ => False
  end.

(** ** [create_train_parser] and [main] *)

(** What [parser.parse_args()] returns. *)
Record Namespace := {
  ns_train_sharded : string;
  ns_val_sharded : string;
  ns_test_sharded : string;
  ns_output_dir : string;
  ns_max_num_ensembles_train : option Z;
  ns_max_num_ensembles_val : option Z;
  ns_max_num_ensembles_test : option Z;
  ns_learning_rate : Q;
  ns_conv_drop_rate : Q;
  ns_fc_drop_rate : Q;
  ns_top_nn_drop_rate : Q;
  ns_top_nn_activation : option string;
  ns_num_epochs : Z;
  ns_repeat_gen : Z;
  ns_num_conv : Z;
  ns_num_final_fc_layers : Z;
  ns_use_batch_norm : bool;
  ns_no_dropout : bool;
  ns_batch_size : Z;
  ns_shuffle : bool;
  ns_early_stopping : bool;
  ns_use_best : bool;
  ns_random_seed : Z;
  ns_max_pos_regions_per_ensemble : Z;
  ns_max_pos_regions_per_ensemble_testing : Z;
  ns_neg_to_pos_ratio : Z;
  ns_neg_to_pos_ratio_testing : Z;
  ns_debug : bool;
  ns_unobserved : bool;
  ns_save_all_ckpts : bool;
  ns_test_only : bool;
  ns_full_test : bool;
  ns_model_dir : option string;
  ns_use_shard_nums : option (list Z)
}.

(** [os.environ[key]] *)
Definition environ_get (environ : list (string * string)) (key : string)
  : Result string :=
  match file_get environ key with
  | Some v => Ok v
  | None => Err (KeyError key)
  end.

(** [create_train_parser()] followed by [parse_args] of an empty command
    line: the defaults.  The four defaults read from the environment are
    evaluated while the parser is built; [seed] is the draw of
    [random.randint(1, 10e6)]. *)
Definition create_train_parser (environ : list (string * string)) (seed : Z)
  : Result Namespace :=
  match environ_get environ "PPI_TRAIN_SHARDED" with
  | Err e => Err e
  | Ok train_path =>
  match environ_get environ "PPI_VAL_SHARDED" with
  | Err e => Err e
  | Ok val_path =>
  match environ_get environ "PPI_TEST_SHARDED" with
  | Err e => Err e
  | Ok test_path =>
  match environ_get environ "MODEL_DIR" with
  | Err e => Err e
  | Ok out =>
      Ok {| ns_train_sharded := train_path; ns_val_sharded := val_path;
            ns_test_sharded := test_path; ns_output_dir := out;
            ns_max_num_ensembles_train := None;
            ns_max_num_ensembles_val := None;
            ns_max_num_ensembles_test := None;
            ns_learning_rate := (1 # 1000)%Q;
            ns_conv_drop_rate := (1 # 10)%Q;
            ns_fc_drop_rate := (25 # 100)%Q;
            ns_top_nn_drop_rate := (5 # 10)%Q;
            ns_top_nn_activation := None;
            ns_num_epochs := 5; ns_repeat_gen := 1;
            ns_num_conv := 4; ns_num_final_fc_layers := 2;
            ns_use_batch_norm := false; ns_no_dropout := false;
            ns_batch_size := 4; ns_shuffle := false;
            ns_early_stopping := false; ns_use_best := false;
            ns_random_seed := seed;
            ns_max_pos_regions_per_ensemble := 70;
            ns_max_pos_regions_per_ensemble_testing := -1;
            ns_neg_to_pos_ratio := 1; ns_neg_to_pos_ratio_testing := 1;
            ns_debug := false; ns_unobserved := false;
            ns_save_all_ckpts := false;
            ns_test_only := false; ns_full_test := false;
            ns_model_dir := None; ns_use_shard_nums := None |}
  end end end end.

(** The file system of [main]: the paths that exist. *)
Definition path_exists (fs : list string) (p : string) : bool :=
  existsb (String.eqb p) fs.



(** The arguments that [main] hands to [train_model]: the namespace with the
    sampling values attached to [grid_config], the new output directory and
    the loaded datasets.  In test-only mode [main] first opens
    [model_dir/config.json]. *)
Definition main_args {Sharded} (load : string -> Sharded) (ns : Namespace)
    (fs : list string) (output_dir : string) : Result (@Args Sharded) :=
  let build (model_dir : string) :=
    {| train_sharded := load (ns_train_sharded ns);
       val_sharded := load (ns_val_sharded ns);
       test_sharded := load (ns_test_sharded ns);
       output_dir := output_dir;
       model_dir := model_dir;
       max_num_ensembles_train := ns_max_num_ensembles_train ns;
       max_num_ensembles_val := ns_max_num_ensembles_val ns;
       max_num_ensembles_test := ns_max_num_ensembles_test ns;
       conv_drop_rate := ns_conv_drop_rate ns;
       fc_drop_rate := ns_fc_drop_rate ns;
       top_nn_drop_rate := ns_top_nn_drop_rate ns;
       num_epochs := ns_num_epochs ns;
       repeat_gen := ns_repeat_gen ns;
       batch_size := ns_batch_size ns;
       shuffle := ns_shuffle ns;
       early_stopping := ns_early_stopping ns;
       use_best := ns_use_best ns;
       random_seed := ns_random_seed ns;
       save_all_ckpts := ns_save_all_ckpts ns;
       test_only := ns_test_only ns;
       use_shard_nums := ns_use_shard_nums ns;
       grid_config :=
         {| max_pos_regions_per_ensemble :=
              ns_max_pos_regions_per_ensemble ns;
            max_pos_regions_per_ensemble_testing :=
              ns_max_pos_regions_per_ensemble_testing ns;
            neg_to_pos_ratio := ns_neg_to_pos_ratio ns;
            neg_to_pos_ratio_testing := ns_neg_to_pos_ratio_testing ns;
            full_test := ns_full_test ns |} |} in
  if ns_test_only ns then
    match ns_model_dir ns with
    | None => Err TypeError
    | Some d =>
        if path_exists fs (path_join d "config.json") then Ok (build d)
        else Err (FileNotFoundError (path_join d "config.json"))
    end
  else
    Ok (build (match ns_model_dir ns with
               | Some d => d
               | None => EmptyString
               end)).

(** The small instance with [--shuffle]. *)
Definition toy_shuffle_args (bs : Z) : @Args Z :=
  {| train_sharded := 3; val_sharded := 3; test_sharded := 7;
     output_dir := "out"; model_dir := "old";
     max_num_ensembles_train := None; max_num_ensembles_val := None;
     max_num_ensembles_test := None;
     conv_drop_rate := (1 # 10)%Q; fc_drop_rate := (1 # 4)%Q;
     top_nn_drop_rate := (1 # 2)%Q;
     num_epochs := 2; repeat_gen := 1; batch_size := bs;
     shuffle := true; early_stopping := false; use_best := false;
     random_seed := 1; save_all_ckpts := false; test_only := false;
     use_shard_nums := None; grid_config := Toy.grid false |}.

(** The small instance with chosen checkpoint flags. *)
Definition toy_flag_args (epochs : Z) (stopping best save_all : bool)
  : @Args Z :=
  {| train_sharded := 1; val_sharded := 1; test_sharded := 7;
     output_dir := "out"; model_dir := "old";
     max_num_ensembles_train := None; max_num_ensembles_val := None;
     max_num_ensembles_test := None;
     conv_drop_rate := (1 # 10)%Q; fc_drop_rate := (1 # 4)%Q;
     top_nn_drop_rate := (1 # 2)%Q;
     num_epochs := epochs; repeat_gen := 1; batch_size := 2;
     shuffle := false; early_stopping := stopping; use_best := best;
     random_seed := 1; save_all_ckpts := save_all; test_only := false;
     use_shard_nums := None; grid_config := Toy.grid false |}.

(** * Properties *)

(** ** Arithmetic of losses and batch counts *)

Lemma Qlt_bool_iff (a b : Q) : Qlt_bool a b = true <-> (a < b)%Q.
Proof.
  unfold Qlt_bool. rewrite negb_true_iff. split; intros H.
  - apply Qnot_le_lt. intros Hle. apply Qle_bool_iff in Hle. congruence.
  - destruct (Qle_bool b a) eqn:E; [| reflexivity].
    apply Qle_bool_iff in E. exfalso. exact (Qlt_not_le _ _ H E).
Qed.

Lemma loss_lt_compat (a a' b b' : Q) :
  (a == a')%Q -> (b == b')%Q -> loss_lt a (Fin b) = loss_lt a' (Fin b').
Proof.
  intros Ha Hb. unfold loss_lt, Qlt_bool. now rewrite Ha, Hb.
Qed.

Lemma loss_ge_compat (a a' b b' : Q) :
  (a == a')%Q -> (b == b')%Q -> loss_ge a (Fin b) = loss_ge a' (Fin b').
Proof.
  intros Ha Hb. unfold loss_ge. now rewrite Ha, Hb.
Qed.

(** [num_batches] is the ceiling of the quotient: the least number of
    batches of size [bs] that hold [n] examples. *)
Lemma num_batches_ceil (n bs : Z) :
  0 < bs ->
  (num_batches n bs - 1) * bs < n <= num_batches n bs * bs.
Proof.
  intros Hbs. unfold num_batches.
  pose proof (Z.div_mod (- n) bs ltac:(lia)) as Hdm.
  pose proof (Z.mod_pos_bound (- n) bs Hbs) as Hm.
  nia.
Qed.

(** ** The monad *)

Lemma bind_ok {W A B} (c : M W A) (k : A -> M W B) w a w' :
  c w = (Ok a, w') -> bind c k w = k a w'.
Proof. intros H. unfold bind. now rewrite H. Qed.

Lemma bind_err {W A B} (c : M W A) (k : A -> M W B) w e w' :
  c w = (Err e, w') -> bind c k w = (Err e, w').
Proof. intros H. unfold bind. now rewrite H. Qed.

Lemma bind_inv_ok {W A B} (c : M W A) (k : A -> M W B) w b w2 :
  bind c k w = (Ok b, w2) ->
  exists a w1, c w = (Ok a, w1) /\ k a w1 = (Ok b, w2).
Proof.
  unfold bind. destruct (c w) as [[a | e] w1]; intros H.
  - now exists a, w1.
  - discriminate.
Qed.

Section LoopProperties.

Context {Feature Params Sharded : Type}.
Variable C : @Collaborators Feature Params Sharded.

(** ** The loop over the batches *)

(** The loop never fails for a positive batch size. *)
Lemma loop_run_ok (args : Args) gen mode num_iters (p : Params) :
  0 < batch_size args ->
  loop_run C args gen mode num_iters p =
  Ok (for_batches C args mode
        (batch_dataset_generator C gen args (mode_eqb mode test))
        (Z.to_nat (num_batches num_iters (batch_size args))) 0 p loop_init).
Proof.
  intros Hbs. unfold loop_run.
  destruct (Z.eqb_spec (batch_size args) 0) as [E | _]; [lia |].
  destruct (Z.ltb_spec (batch_size args) 0) as [E | _]; [lia |].
  reflexivity.
Qed.

(** The progress counter advances with the batch index. *)
Lemma for_batches_t_n (args : Args) mode next n i (p : Params) st :
  t_n st = i ->
  (i <= t_n (snd (for_batches C args mode next n i p st)) <= i + n)%nat.
Proof.
  revert i p st. induction n as [| n IH]; intros i p st Hi; simpl.
  - lia.
  - destruct (next i) as [b |]; simpl; [| lia].
    specialize (IH (S i) (minimize C p (feed_dict args mode b))
                  (accumulate i b (conv_model C p (feed_dict args mode b)) st)).
    simpl in IH. specialize (IH ltac:(now rewrite Hi)). lia.
Qed.

(** The loop stops at the first batch index at which the dataset has ended. *)
Lemma for_batches_exhausted (args : Args) mode next n i (p : Params) st j :
  t_n st = i ->
  (i <= j < i + n)%nat ->
  (forall k, (i <= k < j)%nat -> next k <> None) ->
  next j = None ->
  t_n (snd (for_batches C args mode next n i p st)) = j.
Proof.
  revert i p st. induction n as [| n IH]; intros i p st Hi Hj Hsome Hnone; simpl.
  - lia.
  - destruct (next i) as [b |] eqn:E; simpl.
    + assert (i <> j) by (intros ->; congruence).
      apply IH; simpl; try lia; [| assumption].
      intros k Hk. apply Hsome. lia.
    + destruct (Nat.eq_dec i j) as [-> | Hne]; [assumption |].
      exfalso. apply (Hsome i); [lia | assumption].
Qed.

(** The structure ids collected are those of the batches consumed. *)
Lemma for_batches_structures (args : Args) mode next n i (p : Params) st :
  t_n st = i ->
  structures (snd (for_batches C args mode next n i p st)) =
  (structures st ++
   List.concat
     (map (fun k => match next k with Some b => structure_ b | None => [] end)
        (seq i (t_n (snd (for_batches C args mode next n i p st)) - i))))%list.
Proof.
  revert i p st. induction n as [| n IH]; intros i p st Hi; simpl.
  - rewrite Hi, Nat.sub_diag. simpl. now rewrite app_nil_r.
  - destruct (next i) as [b |] eqn:E; simpl.
    + set (p' := minimize C p (feed_dict args mode b)).
      set (st' := accumulate i b (conv_model C p (feed_dict args mode b)) st).
      assert (Hi' : t_n st' = S i) by (simpl; now rewrite Hi).
      pose proof (for_batches_t_n args mode next n p' st' Hi') as Hb.
      rewrite (IH (S i) p' st' Hi').
      replace (t_n (snd (for_batches C args mode next n (S i) p' st')) - i)%nat
        with (S (t_n (snd (for_batches C args mode next n (S i) p' st')) - S i))
        by lia.
      simpl. rewrite E. now rewrite <- app_assoc.
    + rewrite Hi, Nat.sub_diag. simpl. now rewrite app_nil_r.
Qed.

(** ** Batching a dataset that ends *)

(** The size of a batch taken from a dataset of exactly [e] elements. *)
Lemma take_elements_length (elems : nat -> option (@Example Feature)) e :
  (forall k, (k < e)%nat -> elems k <> None) ->
  (forall k, (e <= k)%nat -> elems k = None) ->
  forall n start,
    List.length (take_elements elems start n) = Nat.min n (e - start).
Proof.
  intros Hsome Hnone. induction n as [| n IH]; intros start;
    cbn [take_elements].
  - reflexivity.
  - destruct (elems start) as [x |] eqn:E; cbn [List.length].
    + assert (start < e)%nat.
      { destruct (Nat.lt_ge_cases start e) as [Hlt | Hge]; [assumption |].
        rewrite (Hnone start Hge) in E. discriminate. }
      rewrite IH. lia.
    + assert (e <= start)%nat.
      { destruct (Nat.lt_ge_cases start e) as [Hlt | Hge]; [| assumption].
        exfalso. exact (Hsome start Hlt E). }
      lia.
Qed.

(** The ids of a batch are as many as the elements taken for it. *)
Lemma dataset_batch_structures bs (elems : nat -> option (@Example Feature)) i :
  List.length
    (match dataset_batch bs elems i with
     | Some b => structure_ b
     | None => []
     end) =
  List.length (take_elements elems (i * bs) bs).
Proof.
  unfold dataset_batch.
  destruct (take_elements elems (i * bs) bs) as [| x b]; simpl.
  - reflexivity.
  - unfold structure_. now rewrite length_map.
Qed.

Lemma dataset_batch_none bs (elems : nat -> option (@Example Feature)) i :
  dataset_batch bs elems i = None <->
  List.length (take_elements elems (i * bs) bs) = 0%nat.
Proof.
  unfold dataset_batch.
  destruct (take_elements elems (i * bs) bs) as [| x b]; simpl;
    split; intros H; (reflexivity || discriminate).
Qed.

(** C7. Every invocation of [__loop] with a positive batch size returns:
    it processes at most [ceil(num_iters / batch_size)] batches (the least
    number of batches that hold [num_iters] examples), and when the dataset
    ends at an earlier batch index it stops there without an error.
    With [num_iters = 10] and [batch_size = 4] it plans 3 batches; over a
    dataset of exactly 7 examples it processes 2 and returns 7 structure
    ids. *)
Theorem loop_stops_at_bound_or_exhaustion
    (args : Args) (generator : GenCall) (mode : Mode) (num_iters : Z)
    (w : World) :
  0 < batch_size args ->
  let elems :=
    dataset_elements C (dataset_generator C generator) args
                     (mode_eqb mode test) in
  let next_element :=
    batch_dataset_generator C (dataset_generator C generator) args
                            (mode_eqb mode test) in
  let planned := num_batches num_iters (batch_size args) in
  exists (p' : Params) (st : LoopState),
    __loop C args generator mode num_iters w =
      (Ok (loop_result st), set_sess p' (record (LoopCall mode num_iters) w))
    /\ (planned - 1) * batch_size args < num_iters <= planned * batch_size args
    /\ (t_n st <= Z.to_nat planned)%nat
    /\ (forall j, (j < Z.to_nat planned)%nat ->
                  (forall k, (k < j)%nat -> next_element k <> None) ->
                  next_element j = None -> t_n st = j)
    /\ (num_iters = 10 -> batch_size args = 4 ->
        (forall k, (k < 7)%nat -> elems k <> None) ->
        (forall k, (7 <= k)%nat -> elems k = None) ->
        planned = 3 /\ t_n st = 2%nat
        /\ List.length (r_structures (loop_result st)) = 7%nat).
Proof.
  intros Hbs elems next_element planned.
  pose (run := for_batches C args mode next_element (Z.to_nat planned) 0
                 (sess w) loop_init).
  exists (fst run), (snd run).
  assert (Hrun : __loop C args generator mode num_iters w =
                 (Ok (loop_result (snd run)),
                  set_sess (fst run) (record (LoopCall mode num_iters) w))).
  { unfold __loop, bind, modify. cbn [sess record].
    rewrite (loop_run_ok args _ mode num_iters (sess w) Hbs).
    fold next_element planned run. now destruct run. }
  assert (Hexh : forall j, (j < Z.to_nat planned)%nat ->
                   (forall k, (k < j)%nat -> next_element k <> None) ->
                   next_element j = None -> t_n (snd run) = j).
  { intros j Hj Hsome Hnone. unfold run.
    apply for_batches_exhausted; try assumption; try reflexivity; try lia.
    intros k Hk. apply Hsome. lia. }
  split; [exact Hrun |].
  split; [exact (num_batches_ceil num_iters Hbs) |].
  split; [| split; [exact Hexh |]].
  - pose proof (for_batches_t_n args mode next_element (Z.to_nat planned)
                  (sess w) loop_init eq_refl) as H.
    change (t_n loop_init) with 0%nat in H. fold run in H. lia.
  - intros Hn Hb Hsome Hnone.
    assert (Hplanned : planned = 3).
    { unfold planned. rewrite Hn, Hb. reflexivity. }
    assert (Hlen : forall i,
               List.length (take_elements elems (i * 4) 4) =
               Nat.min 4 (7 - i * 4)).
    { intros i. apply take_elements_length; assumption. }
    assert (Hnext : forall i, next_element i = dataset_batch 4 elems i).
    { intros i. unfold next_element, batch_dataset_generator.
      rewrite Hb. reflexivity. }
    assert (Ht : t_n (snd run) = 2%nat).
    { apply Hexh.
      - rewrite Hplanned. simpl. lia.
      - intros k Hk Hnone'. rewrite Hnext in Hnone'.
        apply dataset_batch_none in Hnone'. rewrite Hlen in Hnone'.
        destruct k as [| [| k]]; simpl in Hnone'; lia.
      - rewrite Hnext. apply dataset_batch_none. rewrite Hlen. reflexivity. }
    split; [exact Hplanned |]. split; [exact Ht |].
    cbn [loop_result r_structures]. unfold run.
    rewrite for_batches_structures by reflexivity.
    fold run. rewrite Ht. cbn [Nat.sub seq map List.concat loop_init structures].
    rewrite !Hnext, !length_app, !dataset_batch_structures, !Hlen.
    reflexivity.
Qed.

End LoopProperties.

(** A test pass over seven examples, ten planned, batches of four. *)
Lemma loop_stops_at_bound_or_exhaustion_witness :
  exists (p' : Z) (st : LoopState),
    __loop Toy.collab (Toy.args 1 false 4) Toy.test_generator test 10
           Toy.world =
      (Ok (loop_result st), set_sess p' (record (LoopCall test 10) Toy.world))
    /\ t_n st = 2%nat
    /\ List.length (r_structures (loop_result st)) = 7%nat.
Proof.
  destruct (@loop_stops_at_bound_or_exhaustion _ _ _ Toy.collab
              (Toy.args 1 false 4) Toy.test_generator test 10 Toy.world
              ltac:(simpl; lia))
    as (p' & st & Hrun & _ & _ & _ & Hseven).
  exists p', st. split; [exact Hrun |].
  apply Hseven; try reflexivity.
  - intros k Hk.
    do 7 (destruct k as [| k]; [discriminate |]). lia.
  - intros k Hk. apply nth_error_None. simpl. lia.
Defined.

(** ** The running means *)

Lemma Qsum_app (l1 l2 : list Q) : (Qsum (l1 ++ l2) == Qsum l1 + Qsum l2)%Q.
Proof.
  induction l1 as [| x l1 IH]; simpl.
  - ring.
  - rewrite IH. ring.
Qed.

(** One incremental update keeps [mean * count] equal to the sum. *)
Lemma incr_mean_sum (mean value total : Q) (i : nat) :
  (mean * inject_Z (Z.of_nat i) == total)%Q ->
  (incr_mean mean value i * inject_Z (Z.of_nat (S i)) == total + value)%Q.
Proof.
  intros H. unfold incr_mean.
  rewrite Nat2Z.inj_succ. unfold Z.succ. rewrite inject_Z_plus.
  setoid_replace (inject_Z 1) with 1%Q by reflexivity.
  rewrite <- H. field.
  intros Hz. unfold Qeq, Qplus, inject_Z in Hz. simpl in Hz. lia.
Qed.

Section MeanProperties.

Context {Feature Params Sharded : Type}.
Variable C : @Collaborators Feature Params Sharded.

Lemma means_hold_init : means_hold loop_init.
Proof.
  unfold means_hold. simpl. repeat split; reflexivity.
Qed.

Lemma means_hold_accumulate (b : @Batch Feature) out st :
  means_hold st -> means_hold (accumulate (t_n st) b out st).
Proof.
  intros (Hl & Ha & Hml & Hma). unfold means_hold.
  cbn [accumulate losses accuracies t_n epoch_loss epoch_acc].
  rewrite !length_app, !map_app. cbn [List.length map].
  repeat split; try lia.
  - rewrite Qsum_app. cbn [Qsum fold_right].
    rewrite (@incr_mean_sum _ (np_mean (loss out)) _ _ Hml). ring.
  - rewrite Qsum_app. cbn [Qsum fold_right].
    rewrite (@incr_mean_sum _ (np_mean (accuracy out)) _ _ Hma). ring.
Qed.

Lemma means_hold_for_batches (args : Args) mode next n i (p : Params) st :
  t_n st = i -> means_hold st ->
  means_hold (snd (for_batches C args mode next n i p st)).
Proof.
  revert i p st. induction n as [| n IH]; intros i p st Hi Hst; simpl.
  - exact Hst.
  - destruct (next i) as [b |]; simpl; [| exact Hst].
    apply IH.
    + simpl. now rewrite Hi.
    + rewrite <- Hi. now apply means_hold_accumulate.
Qed.

(** C8. After the loop has processed k >= 1 batches, [epoch_loss] and
    [epoch_acc], each updated by [mean += (value - mean) / (i + 1)], are the
    arithmetic means of the k batch means of the fetched losses and
    accuracies (in exact arithmetic). *)
Theorem running_means_are_batch_means
    (args : Args) (mode : Mode) (next_element : nat -> option Batch)
    (n : nat) (p : Params) :
  let st := snd (for_batches C args mode next_element n 0 p loop_init) in
  (0 < t_n st)%nat ->
  List.length (losses st) = t_n st
  /\ List.length (accuracies st) = t_n st
  /\ (epoch_loss st ==
      Qsum (map np_mean (losses st)) / inject_Z (Z.of_nat (t_n st)))%Q
  /\ (epoch_acc st ==
      Qsum (map np_mean (accuracies st)) / inject_Z (Z.of_nat (t_n st)))%Q.
Proof.
  intros st Hk.
  destruct (@means_hold_for_batches args mode next_element n 0%nat p
              loop_init eq_refl means_hold_init)
    as (Hl & Ha & Hml & Hma).
  fold st in Hl, Ha, Hml, Hma.
  assert (Hnz : ~ (inject_Z (Z.of_nat (t_n st)) == 0)%Q).
  { intros Hz. unfold Qeq, inject_Z in Hz. simpl in Hz. lia. }
  repeat split; try assumption.
  - rewrite <- Hml. field. exact Hnz.
  - rewrite <- Hma. field. exact Hnz.
Qed.

(** In a pass that is not a training pass, the feed says so and carries no
    dropout. *)
Lemma feed_dict_eval (args : @Args Sharded) (mode : Mode) (b : @Batch Feature) :
  mode <> train ->
  training_placeholder (feed_dict args mode b) = false
  /\ conv_drop_rate_placeholder (feed_dict args mode b) = 0%Q
  /\ fc_drop_rate_placeholder (feed_dict args mode b) = 0%Q
  /\ top_nn_drop_rate_placeholder (feed_dict args mode b) = 0%Q.
Proof.
  intros Hm. destruct mode; [congruence | |]; repeat split; reflexivity.
Qed.

(** Every batch that the loop processes runs the optimizer, whatever the
    mode. *)
Lemma for_batches_first_batch (args : Args) mode next n (p : Params) st b :
  next 0%nat = Some b ->
  for_batches C args mode next (S n) 0 p st =
  for_batches C args mode next n 1 (minimize C p (feed_dict args mode b))
    (accumulate 0 b (conv_model C p (feed_dict args mode b)) st).
Proof.
  intros H. simpl. now rewrite H.
Qed.

End MeanProperties.

(** Two validation batches of the small instance. *)
Lemma running_means_are_batch_means_witness :
  let st :=
    snd (for_batches Toy.collab (Toy.args 1 false 1) val
           (batch_dataset_generator Toy.collab
              (dataset_generator Toy.collab Toy.val_generator)
              (Toy.args 1 false 1) false) 2 0 0 loop_init) in
  (epoch_loss st ==
   Qsum (map np_mean (losses st)) / inject_Z (Z.of_nat (t_n st)))%Q.
Proof.
  intros st.
  apply (@running_means_are_batch_means _ _ _ Toy.collab (Toy.args 1 false 1)
           val _ 2%nat 0).
  vm_compute. lia.
Defined.

(** C1, at a validation pass of the small instance: the three dropout rates
    fed are zero and the pass is marked as not training, yet the optimizer
    has run once per batch: the variables go from 0 to 1. *)
Theorem val_loop_runs_train_op :
  let args := Toy.args 1 false 2 in
  let r := __loop Toy.collab args Toy.val_generator val 2 Toy.world in
  sess Toy.world = 0
  /\ loop_calls (events (snd r)) = [(val, 2)]
  /\ sess (snd r) = 1
  /\ (forall b : @Batch unit,
        training_placeholder (feed_dict args val b) = false
        /\ conv_drop_rate_placeholder (feed_dict args val b) = 0%Q
        /\ fc_drop_rate_placeholder (feed_dict args val b) = 0%Q
        /\ top_nn_drop_rate_placeholder (feed_dict args val b) = 0%Q).
Proof.
  repeat split.
Qed.

(** ** The epoch controller *)

Lemma loop_calls_app (es1 es2 : list Event) :
  loop_calls (es1 ++ es2) = (loop_calls es1 ++ loop_calls es2)%list.
Proof.
  induction es1 as [| e es1 IH]; simpl; [reflexivity |].
  destruct e; simpl; now rewrite IH.
Qed.

Lemma saved_ckpts_app (es1 es2 : list Event) :
  saved_ckpts (es1 ++ es2) = (saved_ckpts es1 ++ saved_ckpts es2)%list.
Proof.
  induction es1 as [| e es1 IH]; simpl; [reflexivity |].
  destruct e; simpl; now rewrite IH.
Qed.

Section ControllerProperties.

Context {Feature Params Sharded : Type}.
Variable C : @Collaborators Feature Params Sharded.

(** The statements after the loops never raise; they leave the session and
    the list of loop calls alone, and the locals they produce are those of
    [after_loops_locals]. *)
Lemma after_loops_run (args : @Args Sharded) epoch tr vr l (w : @World Params) :
  exists w',
    after_loops args epoch tr vr l w =
      (Ok (after_loops_locals args epoch (ckpt_path args epoch)
             (r_epoch_loss vr) l), w')
    /\ sess w' = sess w
    /\ loop_calls (events w') = loop_calls (events w).
Proof.
  unfold after_loops, after_loops_locals, ckpt_path, _save,
    __update_and_write_run_info, __stats, bind, modify, ret.
  cbn.
  destruct (use_best args), (early_stopping args),
    (loss_lt (r_epoch_loss vr) (best_val_loss l)),
    (epoch =? num_epochs args - 1), (save_all_ckpts args); cbn;
    destruct (loss_ge (r_epoch_loss vr) (prev_val_loss l));
    cbn; eexists; (split; [reflexivity | split; [reflexivity |]]);
    cbn; rewrite ?loop_calls_app; cbn; now rewrite ?app_nil_r.
Qed.

(** An epoch that completes has run [after_loops_locals] on some loss. *)
Lemma epoch_body_inv (args : @Args Sharded) ns epoch l (w : @World Params) r w' :
  epoch_body C args ns epoch l w = (Ok r, w') ->
  exists v, r = after_loops_locals args epoch (ckpt_path args epoch) v l.
Proof.
  unfold epoch_body. intros H.
  apply bind_inv_ok in H. destruct H as (tr & w1 & _ & H).
  apply bind_inv_ok in H. destruct H as (vr & w2 & _ & H).
  destruct (after_loops_run args epoch tr vr l w2) as (w3 & E & _).
  rewrite E in H. inversion H. now exists (r_epoch_loss vr).
Qed.

(** The update rules of the two tracked losses and of the loss history. *)
Lemma after_loops_locals_rules (args : @Args Sharded) epoch c v l :
  let r := after_loops_locals args epoch c v l in
  snd r = early_stopping args && loss_ge v (prev_val_loss l)
  /\ prev_val_loss (fst r) = (if snd r then prev_val_loss l else Fin v)
  /\ best_val_loss (fst r) =
       (if (use_best args || early_stopping args)
           && loss_lt v (best_val_loss l)
        then Fin v else best_val_loss l)
  /\ per_epoch_val_losses (fst r) = (per_epoch_val_losses l ++ [v])%list.
Proof.
  unfold after_loops_locals. cbn.
  destruct (use_best args), (early_stopping args),
    (loss_lt v (best_val_loss l)), (epoch =? num_epochs args - 1),
    (save_all_ckpts args); cbn;
    destruct (loss_ge v (prev_val_loss l));
    cbn; repeat split; reflexivity.
Qed.

(** With early stopping, a completed epoch loop has tracked its losses. *)
Lemma for_epochs_tracked (args : @Args Sharded) ns epochs l (w : @World Params) lf wf :
  early_stopping args = true ->
  for_epochs C args ns epochs l w = (Ok lf, wf) ->
  exists vs,
    per_epoch_val_losses lf = (per_epoch_val_losses l ++ vs)%list
    /\ Tracked (prev_val_loss l) (best_val_loss l) vs
               (prev_val_loss lf) (best_val_loss lf).
Proof.
  intros Hes. revert l w. induction epochs as [| epoch rest IH]; intros l w H.
  - inversion H. subst. exists []. split; [now rewrite app_nil_r | constructor].
  - cbn [for_epochs] in H. apply bind_inv_ok in H.
    destruct H as (r & w1 & Hbody & H).
    apply epoch_body_inv in Hbody. destruct Hbody as (v & ->).
    destruct (after_loops_locals_rules args epoch (ckpt_path args epoch) v l)
      as (Hstop & Hprev & Hbest & Hhist).
    rewrite Hes, orb_true_r in Hbest. rewrite Hes in Hstop. cbn in Hstop, Hbest.
    destruct (snd (after_loops_locals args epoch (ckpt_path args epoch) v l))
      eqn:Estop.
    + inversion H. subst. exists [v]. split; [exact Hhist |].
      rewrite Hprev, Hbest. now apply tracked_stop.
    + apply IH in H. destruct H as (vs & Hvs & Htr).
      exists (v :: vs). split.
      * rewrite Hvs, Hhist. now rewrite <- app_assoc.
      * rewrite Hprev, Hbest in Htr. now apply tracked_next.
Qed.

(** C4. With early stopping, an epoch loop whose validation losses come out
    as 1.0, 0.8, 0.9 runs exactly three epochs: the third stops it because
    0.9 >= 0.8, the loss of the epoch before.  The best loss is 0.8 after two
    epochs and still 0.8 after the third.  The two tracked losses follow
    different rules at every epoch: the previous loss is replaced unless the
    epoch stops the loop, the best loss only by a smaller one. *)
Theorem early_stopping_one_step_lookback
    (args : @Args Sharded) ns epochs (w : @World Params) lf wf (v1 v2 : Q) :
  early_stopping args = true ->
  for_epochs C args ns epochs locals_init w = (Ok lf, wf) ->
  (v1 == 1)%Q -> (v2 == 8 # 10)%Q ->
  (per_epoch_val_losses lf = [v1; v2] ->
   best_val_loss lf = Fin v2 /\ prev_val_loss lf = Fin v2)
  /\ (forall v3 rest,
        (v3 == 9 # 10)%Q ->
        per_epoch_val_losses lf = v1 :: v2 :: v3 :: rest ->
        rest = [] /\ best_val_loss lf = Fin v2 /\ prev_val_loss lf = Fin v2)
  /\ (forall (args' : @Args Sharded) epoch tr vr l (w0 : @World Params)
             l' stop w0',
        after_loops args' epoch tr vr l w0 = (Ok (l', stop), w0') ->
        stop = early_stopping args'
               && loss_ge (r_epoch_loss vr) (prev_val_loss l)
        /\ prev_val_loss l' =
             (if stop then prev_val_loss l else Fin (r_epoch_loss vr))
        /\ best_val_loss l' =
             (if (use_best args' || early_stopping args')
                 && loss_lt (r_epoch_loss vr) (best_val_loss l)
              then Fin (r_epoch_loss vr) else best_val_loss l)).
Proof.
  intros Hes Hrun H1 H2.
  destruct (for_epochs_tracked args ns epochs locals_init w Hes Hrun)
    as (vs & Hvs & Htr).
  cbn in Hvs, Htr.
  assert (G12 : loss_ge v2 (Fin v1) = false)
    by (rewrite (loss_ge_compat H2 H1); reflexivity).
  assert (L12 : loss_lt v2 (Fin v1) = true)
    by (rewrite (loss_lt_compat H2 H1); reflexivity).
  assert (B12 : better v2 (better v1 Inf) = Fin v2)
    by (unfold better at 2; cbn; unfold better; now rewrite L12).
  split; [| split].
  - intros Hl. rewrite Hl in Hvs. subst vs.
    inversion Htr as [| | ? ? ? ? ? ? _ Htr1]; subst.
    inversion Htr1 as [| ? ? ? Hge | ? ? ? ? ? ? _ Htr2]; subst.
    + congruence.
    + inversion Htr2; subst. now rewrite B12.
  - intros v3 rest H3 Hl. rewrite Hl in Hvs. subst vs.
    assert (G23 : loss_ge v3 (Fin v2) = true)
      by (rewrite (loss_ge_compat H3 H2); reflexivity).
    assert (L23 : loss_lt v3 (Fin v2) = false)
      by (rewrite (loss_lt_compat H3 H2); reflexivity).
    inversion Htr as [| | ? ? ? ? ? ? _ Htr1]; subst.
    inversion Htr1 as [| | ? ? ? ? ? ? _ Htr2]; subst.
    rewrite B12 in Htr2.
    inversion Htr2 as [| ? ? ? _ | ? ? ? ? ? ? Hge _]; subst.
    + unfold better. rewrite L23. repeat split; reflexivity.
    + congruence.
  - intros args' epoch tr vr l w0 l' stop w0' Hal.
    destruct (after_loops_run args' epoch tr vr l w0) as (w1 & E & _).
    rewrite E in Hal. inversion Hal as [[Hr Hw]].
    destruct (after_loops_locals_rules args' epoch (ckpt_path args' epoch)
                (r_epoch_loss vr) l) as (Hstop & Hprev & Hbest & _).
    rewrite Hr in Hstop, Hprev, Hbest. cbn in Hstop, Hprev, Hbest.
    repeat split; assumption.
Qed.

End ControllerProperties.

(** Five epochs allowed on the small instance; the losses come out as
    1, 0.8 and 0.9. *)
Lemma early_stopping_one_step_lookback_witness :
  exists lf wf,
    for_epochs Toy.collab (Toy.args 5 true 2) (2, 2) (range 1 6) locals_init
               Toy.world = (Ok lf, wf)
    /\ List.length (per_epoch_val_losses lf) = 3%nat
    /\ best_val_loss lf = Fin (160 # 200)
    /\ prev_val_loss lf = Fin (160 # 200).
Proof.
  eexists. eexists. split; [vm_compute; reflexivity |].
  match goal with
  | |- context [per_epoch_val_losses ?lf] =>
      destruct (@early_stopping_one_step_lookback _ _ _ Toy.collab
                  (Toy.args 5 true 2) (2, 2) (range 1 6) Toy.world lf _
                  (2 # 2) (160 # 200) eq_refl
                  ltac:(vm_compute; reflexivity)
                  ltac:(reflexivity) ltac:(reflexivity))
        as (_ & H3 & _)
  end.
  destruct (H3 (180 # 200) [] ltac:(reflexivity) eq_refl) as (_ & Hb & Hp).
  split; [reflexivity |]. split; [exact Hb | exact Hp].
Defined.

(** ** Example counts and the test block *)

Section RunProperties.

Context {Feature Params Sharded : Type}.
Variable C : @Collaborators Feature Params Sharded.

Lemma train_val_num_structures_ok (args : @Args Sharded) :
  0 < max_pos_regions_per_ensemble (grid_config args) ->
  0 < neg_to_pos_ratio (grid_config args) ->
  train_val_num_structures C args =
  Ok (num_structures_of C (max_num_ensembles_train args) (train_sharded args)
      * (repeat_gen args
         * (max_pos_regions_per_ensemble (grid_config args)
            * (1 + neg_to_pos_ratio (grid_config args)))),
      num_structures_of C (max_num_ensembles_val args) (val_sharded args)
      * (repeat_gen args
         * (max_pos_regions_per_ensemble (grid_config args)
            * (1 + neg_to_pos_ratio (grid_config args))))).
Proof.
  intros Hp Hr. unfold train_val_num_structures, num_structures_of.
  destruct (Z.gtb_spec (max_pos_regions_per_ensemble (grid_config args)) 0);
    [| lia].
  destruct (Z.gtb_spec (neg_to_pos_ratio (grid_config args)) 0); [| lia].
  reflexivity.
Qed.

Lemma train_val_num_structures_assert (args : @Args Sharded) :
  max_pos_regions_per_ensemble (grid_config args) <= 0
  \/ neg_to_pos_ratio (grid_config args) <= 0 ->
  train_val_num_structures C args = Err AssertionError.
Proof.
  intros H. unfold train_val_num_structures.
  destruct (Z.gtb_spec (max_pos_regions_per_ensemble (grid_config args)) 0);
    destruct (Z.gtb_spec (neg_to_pos_ratio (grid_config args)) 0);
    simpl; try reflexivity; lia.
Qed.

Lemma test_num_structures_assert (args : @Args Sharded) :
  full_test (grid_config args) = true
  \/ max_pos_regions_per_ensemble_testing (grid_config args) <= 0
  \/ neg_to_pos_ratio_testing (grid_config args) <= 0 ->
  test_num_structures C args = Err AssertionError.
Proof.
  intros H. unfold test_num_structures.
  destruct (full_test (grid_config args));
    destruct (Z.gtb_spec
                (max_pos_regions_per_ensemble_testing (grid_config args)) 0);
    destruct (Z.gtb_spec (neg_to_pos_ratio_testing (grid_config args)) 0);
    simpl; try reflexivity; intuition (discriminate || lia).
Qed.

(** Choosing the checkpoint reads the world and does not change it. *)
Lemma choose_checkpoint_world (args : @Args Sharded) l (w : @World Params) :
  snd (choose_checkpoint args l w) = w.
Proof.
  unfold choose_checkpoint, lift, ret, raise.
  destruct (test_only args); simpl.
  - destruct (file_get (run_info_files w) _) as [ri |]; [| reflexivity].
    destruct (best_ckpt_of ri) as [c | e]; [| reflexivity].
    destruct (file_get (ckpt_files w) c); reflexivity.
  - destruct (use_best args); [reflexivity |].
    destruct (ckpt l); reflexivity.
Qed.

(** When the count of the test split fails its assertion, the test block
    raises before the loop: no loop call and no result table are added, and
    the exception is the assertion as soon as a checkpoint was chosen and
    restored. *)
Lemma testing_asserts (args : @Args Sharded) :
  test_num_structures C args = Err AssertionError ->
  forall l (w : @World Params),
  exists e,
    fst (testing C args l w) = Err e
    /\ loop_calls (events (snd (testing C args l w))) = loop_calls (events w)
    /\ result_files (snd (testing C args l w)) = result_files w
    /\ (forall to_use p,
          choose_checkpoint args l w = (Ok to_use, w) ->
          file_get (ckpt_files w) to_use = Some p ->
          e = AssertionError).
Proof.
  intros Hcount l w. unfold testing, bind.
  pose proof (choose_checkpoint_world args l w) as Hw.
  destruct (choose_checkpoint args l w) as [[c | e] w1]; simpl in Hw; subst w1.
  - unfold saver_restore.
    destruct (file_get (ckpt_files w) c) as [p |] eqn:Ec.
    + rewrite Hcount. unfold lift. cbn.
      exists AssertionError. repeat split.
      rewrite loop_calls_app. cbn. now rewrite app_nil_r.
    + exists (NotFoundError c). cbn. repeat split.
      intros to_use p H Hf. inversion H. subst. congruence.
  - exists e. cbn. repeat split.
    intros to_use p H. discriminate.
Qed.

(** C6. With a positive cap and a positive ratio, the example counts of the
    train and the validation split are
    [num_structures * repeat * max_pos_regions_per_ensemble *
    (1 + neg_to_pos_ratio)], where [num_structures] is the cap on the
    ensembles when it is set and the number of keyed entities of the split
    otherwise; the epoch loop runs with these counts.  The count is a function
    of the arguments and of the dataset sizes alone. *)
Theorem num_examples_per_epoch_formula (args : @Args Sharded) :
  0 < max_pos_regions_per_ensemble (grid_config args) ->
  0 < neg_to_pos_ratio (grid_config args) ->
  let count max_num_ensembles sharded :=
    num_structures_of C max_num_ensembles sharded
    * repeat_gen args
    * max_pos_regions_per_ensemble (grid_config args)
    * (1 + neg_to_pos_ratio (grid_config args)) in
  let counts :=
    (count (max_num_ensembles_train args) (train_sharded args),
     count (max_num_ensembles_val args) (val_sharded args)) in
  train_val_num_structures C args = Ok counts
  /\ forall w : @World Params,
       training C args w =
       for_epochs C args counts (range 1 (num_epochs args + 1)) locals_init w.
Proof.
  intros Hp Hr count counts.
  assert (E : train_val_num_structures C args = Ok counts).
  { rewrite (train_val_num_structures_ok args Hp Hr).
    unfold counts, count. f_equal. f_equal; ring. }
  split; [exact E |].
  intros w. unfold training, bind, lift. now rewrite E.
Qed.

(** C5. A non-positive cap or ratio stops the run at an assertion before any
    example count exists.  For the train and validation splits the run ends
    right after the initializer, with no loop or file; for the test split
    (when [full_test] is unset) the test block raises before its loop. *)
Theorem nonpositive_sampling_fails_before_counting (args : @Args Sharded) :
  (test_only args = false ->
   max_pos_regions_per_ensemble (grid_config args) <= 0
   \/ neg_to_pos_ratio (grid_config args) <= 0 ->
   train_val_num_structures C args = Err AssertionError
   /\ forall w : @World Params,
        train_model C args w = (Err AssertionError, set_sess (init C) w))
  /\ (full_test (grid_config args) = false ->
      max_pos_regions_per_ensemble_testing (grid_config args) <= 0
      \/ neg_to_pos_ratio_testing (grid_config args) <= 0 ->
      test_num_structures C args = Err AssertionError
      /\ forall l (w : @World Params),
         exists e,
           fst (testing C args l w) = Err e
           /\ loop_calls (events (snd (testing C args l w)))
              = loop_calls (events w)
           /\ result_files (snd (testing C args l w)) = result_files w
           /\ (forall to_use p,
                 choose_checkpoint args l w = (Ok to_use, w) ->
                 file_get (ckpt_files w) to_use = Some p ->
                 e = AssertionError)).
Proof.
  split.
  - intros Hto Hbad.
    pose proof (train_val_num_structures_assert args Hbad) as E.
    split; [exact E |].
    intros w. unfold train_model, training, bind, modify, lift.
    rewrite Hto. cbn. now rewrite E.
  - intros _ Hbad.
    assert (E : test_num_structures C args = Err AssertionError)
      by (apply test_num_structures_assert; now right).
    split; [exact E |]. now apply testing_asserts.
Qed.


End RunProperties.

(** ** Checkpoints *)

Section CheckpointProperties.

Context {Feature Params Sharded : Type}.
Variable C : @Collaborators Feature Params Sharded.


(** An epoch that is neither a new best under a best-tracking policy, nor
    the epoch before the last, nor under [save_all_ckpts], saves nothing and
    leaves [ckpt] as it was. *)
Lemma after_loops_without_save (args : @Args Sharded) epoch tr vr l
    (w : @World Params) :
  use_best args = false -> early_stopping args = false ->
  save_all_ckpts args = false -> (epoch =? num_epochs args - 1) = false ->
  exists l' w',
    after_loops args epoch tr vr l w = (Ok (l', false), w')
    /\ ckpt l' = ckpt l
    /\ ckpt_files w' = ckpt_files w
    /\ saved_ckpts (events w') = saved_ckpts (events w)
    /\ loop_calls (events w') = loop_calls (events w).
Proof.
  intros Hub Hes Hsa Hep.
  unfold after_loops, __update_and_write_run_info, __stats, bind, modify, ret.
  rewrite Hub, Hes, Hsa, Hep. cbn.
  eexists. eexists. split; [reflexivity |].
  cbn. rewrite !saved_ckpts_app, !loop_calls_app. cbn.
  rewrite !app_nil_r. repeat split; reflexivity.
Qed.


(** Without a best-tracking policy and without [save_all_ckpts], the epoch
    numbered [num_epochs], the last of the loop, saves nothing. *)
Lemma final_epoch_saves_nothing (args : @Args Sharded) tr vr l
    (w : @World Params) :
  use_best args = false -> early_stopping args = false ->
  save_all_ckpts args = false ->
  exists l' w',
    after_loops args (num_epochs args) tr vr l w = (Ok (l', false), w')
    /\ ckpt l' = ckpt l
    /\ ckpt_files w' = ckpt_files w
    /\ saved_ckpts (events w') = saved_ckpts (events w).
Proof.
  intros Hub Hes Hsa.
  assert (Hep : (num_epochs args =? num_epochs args - 1) = false)
    by (apply Z.eqb_neq; lia).
  destruct (after_loops_without_save args (num_epochs args) tr vr l w
              Hub Hes Hsa Hep) as (l' & w' & E & H1 & H2 & H3 & _).
  now exists l', w'.
Qed.

(** The loop does not read [--use_best]. *)
Lemma for_batches_use_best (args : @Args Sharded) b mode next n i
    (p : Params) st :
  for_batches C (with_use_best b args) mode next n i p st
  = for_batches C args mode next n i p st.
Proof.
  revert i p st. induction n as [| n IH]; intros i p st; simpl.
  - reflexivity.
  - destruct (next i) as [x |]; [| reflexivity]. apply IH.
Qed.

Lemma __loop_use_best (args : @Args Sharded) b g mode n (w : @World Params) :
  __loop C (with_use_best b args) g mode n w = __loop C args g mode n w.
Proof.
  unfold __loop, bind, modify, loop_run, batch_dataset_generator,
    dataset_elements.
  cbn [batch_size shuffle with_use_best].
  now rewrite for_batches_use_best.
Qed.

(** In test-only mode the run does not depend on [--use_best]. *)
Lemma test_only_ignores_use_best (args : @Args Sharded) b (w : @World Params) :
  test_only args = true ->
  train_model C (with_use_best b args) w = train_model C args w.
Proof.
  intros Hto.
  assert (Hc : forall l,
             choose_checkpoint (with_use_best b args) l
             = choose_checkpoint (Params := Params) args l).
  { intros l. unfold choose_checkpoint. cbn [test_only with_use_best].
    rewrite Hto. reflexivity. }
  assert (Ht : forall l w1,
             testing C (with_use_best b args) l w1 = testing C args l w1).
  { intros l w1. unfold testing. unfold bind at 1 6. rewrite Hc.
    destruct (choose_checkpoint args l w1) as [[c | e] w2]; [| reflexivity].
    unfold bind at 1 5.
    destruct (saver_restore c w2) as [[[] | e] w3]; [| reflexivity].
    unfold bind at 1 4.
    change (lift (test_num_structures C (with_use_best b args)) w3)
      with (lift (test_num_structures C args) w3).
    destruct (lift (test_num_structures C args) w3) as [[n | e] w4];
      [| reflexivity].
    unfold bind at 1 3. rewrite __loop_use_best. reflexivity. }
  unfold train_model. cbn [test_only with_use_best].
  rewrite Hto. cbn [negb]. unfold bind, modify, ret. apply Ht.
Qed.

(** C10. In test-only mode the checkpoint chosen and restored is the
    [best_ckpt] entry of the [run_info.json] of [model_dir], whatever
    [--use_best] says, and the whole run is the same for both values of the
    flag.  After a training phase the flag does choose: the [best_ckpt] entry
    when it is set, the variable [ckpt] when it is not. *)
Theorem test_only_restores_best_ckpt (args : @Args Sharded)
    (w : @World Params) ri c p :
  test_only args = true ->
  file_get (run_info_files w) (path_join (model_dir args) "run_info.json")
    = Some ri ->
  best_ckpt_of ri = Ok c ->
  file_get (ckpt_files w) c = Some p ->
  (forall b l, choose_checkpoint (with_use_best b args) l w = (Ok c, w))
  /\ (forall b, train_model C (with_use_best b args) w = train_model C args w)
  /\ (exists rest,
        events (snd (train_model C args w))
        = (events w ++ Restored c :: rest)%list)
  /\ (forall (args' : @Args Sharded) l (w' : @World Params) c1 c2,
        test_only args' = false ->
        best_ckpt_of (run_info l) = Ok c1 ->
        ckpt l = Some c2 ->
        choose_checkpoint (with_use_best true args') l w' = (Ok c1, w')
        /\ choose_checkpoint (with_use_best false args') l w' = (Ok c2, w')).
Proof.
  intros Hto Hri Hbest Hck.
  assert (Hchoose : forall (w1 : @World Params) l,
             run_info_files w1 = run_info_files w ->
             ckpt_files w1 = ckpt_files w ->
             choose_checkpoint args l w1 = (Ok c, w1)).
  { intros w1 l H1 H2. unfold choose_checkpoint.
    rewrite Hto. cbn [negb]. cbv beta.
    rewrite H1, Hri, Hbest, H2, Hck. reflexivity. }
  split; [| split; [| split]].
  - intros b l. rewrite <- (Hchoose w l eq_refl eq_refl).
    unfold choose_checkpoint. cbn [test_only with_use_best].
    rewrite Hto. reflexivity.
  - intros b. now apply test_only_ignores_use_best.
  - unfold train_model. rewrite Hto. cbn [negb].
    unfold bind at 1. unfold modify at 1. unfold bind at 1. unfold ret at 1.
    unfold testing. unfold bind at 1.
    rewrite (Hchoose (set_sess (init C) w) locals_init eq_refl eq_refl).
    unfold bind at 1. unfold saver_restore at 1.
    cbn [ckpt_files set_sess]. rewrite Hck.
    unfold bind at 1. unfold lift at 1.
    destruct (test_num_structures C args) as [n | e].
    + unfold __loop, bind, modify. cbn [sess record set_sess].
      destruct (loop_run C args _ test n p) as [[p' st] | e].
      * eexists. cbn. rewrite <- !app_assoc. reflexivity.
      * eexists. cbn. rewrite <- !app_assoc. reflexivity.
    + eexists. cbn. reflexivity.
  - intros args' l w' c1 c2 Hto' H1 H2. unfold choose_checkpoint.
    cbn [test_only use_best with_use_best]. rewrite Hto', H1, H2.
    split; reflexivity.
Qed.

End CheckpointProperties.

(** ** The small instance *)

(** The default sampling values on one structure: 1 * 1 * 70 * (1 + 1). *)
Lemma num_examples_per_epoch_formula_witness :
  train_val_num_structures Toy.collab
    (with_grid_config Toy.default_grid (Toy.args 5 false 4)) = Ok (140, 140).
Proof.
  apply (@num_examples_per_epoch_formula _ _ _ Toy.collab
           (with_grid_config Toy.default_grid (Toy.args 5 false 4)));
    simpl; lia.
Defined.

(** A cap of zero for training; the default cap of -1 for testing. *)
Lemma nonpositive_sampling_fails_before_counting_witness :
  train_model Toy.collab
    (with_grid_config
       {| max_pos_regions_per_ensemble := 0;
          max_pos_regions_per_ensemble_testing := 1;
          neg_to_pos_ratio := 1; neg_to_pos_ratio_testing := 1;
          full_test := false |} (Toy.args 5 false 4)) Toy.world
  = (Err AssertionError, set_sess 0 Toy.world)
  /\ test_num_structures Toy.collab
       (with_grid_config Toy.default_grid (Toy.args 5 false 4))
     = Err AssertionError.
Proof.
  split.
  - apply (proj1 (@nonpositive_sampling_fails_before_counting _ _ _ Toy.collab
                    (with_grid_config
                       {| max_pos_regions_per_ensemble := 0;
                          max_pos_regions_per_ensemble_testing := 1;
                          neg_to_pos_ratio := 1; neg_to_pos_ratio_testing := 1;
                          full_test := false |} (Toy.args 5 false 4)))).
    + reflexivity.
    + left. simpl. lia.
  - apply (proj2 (@nonpositive_sampling_fails_before_counting _ _ _ Toy.collab
                    (with_grid_config Toy.default_grid (Toy.args 5 false 4)))).
    + reflexivity.
    + left. simpl. lia.
Defined.




(** A test-only run on the files of an earlier run. *)
Lemma test_only_restores_best_ckpt_witness :
  choose_checkpoint
    (with_use_best false (with_test_only true (Toy.args 5 false 4)))
    locals_init Toy.trained_world
  = (Ok "old/model-ckpt-3"%string, Toy.trained_world).
Proof.
  apply (@test_only_restores_best_ckpt _ _ _ Toy.collab
           (with_test_only true (Toy.args 5 false 4)) Toy.trained_world
           [("val_losses"%string, JLosses [1%Q; (8 # 10)%Q; (9 # 10)%Q]);
            ("best_ckpt"%string, JStr "old/model-ckpt-3")]
           "old/model-ckpt-3" 6 eq_refl eq_refl eq_refl eq_refl).
Defined.


(** ** Batches of a test pass and of a shuffled pass *)

Lemma skipn_nth_error_cons {A} (l : list A) n x :
  nth_error l n = Some x -> skipn n l = x :: skipn (S n) l.
Proof.
  revert n. induction l as [| y l IH]; intros [| n] H; try discriminate.
  - simpl in H. now inversion H.
  - simpl in H. apply IH in H. exact H.
Qed.

Lemma firstn_add {A} (a b : nat) (l : list A) :
  firstn (a + b) l = (firstn a l ++ firstn b (skipn a l))%list.
Proof.
  revert l. induction a as [| a IH]; intros l; simpl.
  - reflexivity.
  - destruct l as [| x l]; simpl.
    + now rewrite firstn_nil.
    + now rewrite IH.
Qed.

(** Taking elements from a one-pass dataset is slicing the list. *)
Lemma take_elements_nth_error {Feature} (gen : list (@Example Feature)) n :
  forall start,
    take_elements (nth_error gen) start n = firstn n (skipn start gen).
Proof.
  induction n as [| n IH]; intros start; simpl.
  - reflexivity.
  - destruct (nth_error gen start) as [x |] eqn:E.
    + rewrite (skipn_nth_error_cons _ _ E). simpl. now rewrite IH.
    + apply nth_error_None in E. now rewrite (skipn_all2 _ E).
Qed.

(** Taking elements from a dataset that never ends. *)
Lemma take_elements_total {Feature}
    (elems : nat -> option (@Example Feature)) :
  (forall k, elems k <> None) ->
  forall n start,
    List.length (take_elements elems start n) = n
    /\ forall j, (j < n)%nat ->
         nth_error (take_elements elems start n) j = elems (start + j)%nat.
Proof.
  intros Htot. induction n as [| n IH]; intros start; simpl.
  - split; [reflexivity | intros j Hj; lia].
  - destruct (elems start) as [x |] eqn:E; [| now destruct (Htot start)].
    destruct (IH (S start)) as (Hl & Hn). split.
    + simpl. now rewrite Hl.
    + intros [| j] Hj; simpl.
      * now rewrite Nat.add_0_r.
      * rewrite Hn by lia. f_equal. lia.
Qed.

Section BatchProperties.

Context {Feature Params Sharded : Type}.
Variable C : @Collaborators Feature Params Sharded.

(** The i-th batch of a test pass. *)
Lemma test_batch_at (args : @Args Sharded) gen i :
  batch_dataset_generator C gen args true i =
  match firstn (Z.to_nat (batch_size args))
               (skipn (i * Z.to_nat (batch_size args)) gen) with
  | [] => None
  | b => Some b
  end.
Proof.
  unfold batch_dataset_generator, dataset_elements, dataset_batch. cbn [negb].
  now rewrite take_elements_nth_error.
Qed.

(** The batches consumed in a test pass are the first examples of the
    dataset, cut into batches. *)
Lemma consumed_test (args : @Args Sharded) gen n :
  0 < batch_size args ->
  forall i,
    List.concat (consumed (batch_dataset_generator C gen args true) n i) =
    firstn (n * Z.to_nat (batch_size args))
           (skipn (i * Z.to_nat (batch_size args)) gen).
Proof.
  intros Hbs. set (bs := Z.to_nat (batch_size args)).
  assert (Hpos : (0 < bs)%nat) by (unfold bs; lia).
  induction n as [| n IH]; intros i; cbn [consumed].
  - reflexivity.
  - rewrite test_batch_at. fold bs.
    change (S n * bs)%nat with (bs + n * bs)%nat. rewrite firstn_add.
    destruct (firstn bs (skipn (i * bs) gen)) as [| x b] eqn:E.
    + assert (Hnil : skipn (i * bs) gen = []).
      { destruct (skipn (i * bs) gen) as [| y l]; [reflexivity |].
        destruct bs; [lia | discriminate]. }
      rewrite Hnil, skipn_nil, firstn_nil. reflexivity.
    + cbn [List.concat]. rewrite IH, skipn_skipn.
      replace (bs + i * bs)%nat with (S i * bs)%nat by reflexivity.
      reflexivity.
Qed.

(** What the loop has done in terms of the batches it consumed: the
    counter, the ids, the labels and the variables. *)
Lemma for_batches_consumed (args : @Args Sharded) mode next n :
  forall i (p : Params) st,
    let cs := consumed next n i in
    let r := for_batches C args mode next n i p st in
    t_n (snd r) = (t_n st + List.length cs)%nat
    /\ structures (snd r) = (structures st ++ List.concat (map structure_ cs))%list
    /\ labels (snd r) = (labels st ++ List.concat (map label_ cs))%list
    /\ fst r = fold_left (fun q b => minimize C q (feed_dict args mode b)) cs p.
Proof.
  induction n as [| n IH]; intros i p st; cbn [consumed for_batches].
  - cbn. rewrite !app_nil_r. repeat split; lia.
  - destruct (next i) as [b |]; cbn.
    + destruct (IH (S i) (minimize C p (feed_dict args mode b))
                  (accumulate i b (conv_model C p (feed_dict args mode b)) st))
        as (Ht & Hs & Hl & Hp).
      rewrite Ht, Hs, Hl, Hp. cbn. rewrite <- !app_assoc.
      repeat split; lia.
    + rewrite !app_nil_r. repeat split; lia.
Qed.

(** X1. In a test pass the iterator cuts the generator's examples into
    consecutive batches of [batch_size], the last one possibly shorter and
    none empty; it is exhausted exactly from the batch index at which the
    examples are used up, and its batches put end to end are the generator's
    examples, each once and in order. *)
Theorem test_batches_partition_dataset (args : @Args Sharded)
    (gen : list Example) :
  0 < batch_size args ->
  let bs := Z.to_nat (batch_size args) in
  let next_element := batch_dataset_generator C gen args true in
  (forall i b, next_element i = Some b ->
     b = firstn bs (skipn (i * bs) gen)
     /\ b <> []
     /\ List.length b = Nat.min bs (List.length gen - i * bs))
  /\ (forall i, next_element i = None <-> (List.length gen <= i * bs)%nat)
  /\ List.concat (consumed next_element (List.length gen) 0) = gen.
Proof.
  intros Hbs bs next_element.
  assert (Hpos : (0 < bs)%nat) by (unfold bs; lia).
  assert (Hat : forall i, next_element i =
                          match firstn bs (skipn (i * bs) gen) with
                          | [] => None
                          | b => Some b
                          end)
    by (intros i; apply test_batch_at).
  split; [| split].
  - intros i b H. rewrite Hat in H.
    destruct (firstn bs (skipn (i * bs) gen)) as [| x l] eqn:E;
      [discriminate |].
    inversion H; subst b. rewrite <- E.
    split; [reflexivity |]. split; [now rewrite E |].
    now rewrite length_firstn, length_skipn.
  - intros i. rewrite Hat. split.
    + intros H.
      destruct (firstn bs (skipn (i * bs) gen)) as [| x l] eqn:E;
        [| discriminate].
      apply (f_equal (@List.length _)) in E.
      rewrite length_firstn, length_skipn in E. simpl in E. lia.
    + intros H. now rewrite (skipn_all2 _ H), firstn_nil.
  - unfold next_element. rewrite (consumed_test args gen _ Hbs 0).
    fold bs. cbn [Nat.mul skipn]. apply firstn_all2. nia.
Qed.

(** The batches of a pass with [--shuffle] over a generator that yields at
    least one example are all full. *)
Lemma shuffled_batch_full (args : @Args Sharded)
    (gen : list Example) :
  0 < batch_size args ->
  shuffle args = true ->
  gen <> [] ->
  let bs := Z.to_nat (batch_size args) in
  forall i,
  exists b,
    batch_dataset_generator C gen args false i = Some b
    /\ List.length b = bs
    /\ forall j, (j < bs)%nat ->
         nth_error b j = nth_error gen ((i * bs + j) mod List.length gen).
Proof.
  intros Hbs Hsh Hne bs i.
  assert (Hpos : (0 < bs)%nat) by (unfold bs; lia).
  unfold batch_dataset_generator, dataset_elements, dataset_batch.
  rewrite Hsh. cbn [negb]. fold bs.
  set (elems := fun k : nat =>
                  match gen with
                  | [] => None
                  | _ :: _ => nth_error gen (k mod List.length gen)
                  end).
  assert (Htot : forall k, elems k <> None).
  { intros k. unfold elems. destruct gen as [| x l]; [congruence |].
    apply nth_error_Some. apply Nat.mod_upper_bound. simpl. lia. }
  assert (Hel : forall k, elems k = nth_error gen (k mod List.length gen)).
  { intros k. unfold elems. destruct gen; [congruence | reflexivity]. }
  destruct (take_elements_total elems Htot bs (i * bs)) as (Hl & Hn).
  destruct (take_elements elems (i * bs) bs) as [| x b] eqn:E.
  - simpl in Hl. lia.
  - exists (x :: b). split; [reflexivity |]. split; [exact Hl |].
    intros j Hj. rewrite Hn by exact Hj. apply Hel.
Qed.

(** X2. In a training or validation pass with [--shuffle] over a generator
    that yields at least one example, the iterator never ends: every batch
    has exactly [batch_size] examples, taken cyclically from the generator's
    pass. *)
Theorem shuffled_batches_never_end (args : @Args Sharded)
    (gen : list Example) :
  0 < batch_size args ->
  shuffle args = true ->
  gen <> [] ->
  let bs := Z.to_nat (batch_size args) in
  forall i,
  exists b,
    batch_dataset_generator C gen args false i = Some b
    /\ List.length b = bs
    /\ forall j, (j < bs)%nat ->
         nth_error b j = nth_error gen ((i * bs + j) mod List.length gen).
Proof.
  intros Hbs Hsh Hne bs i. exact (shuffled_batch_full args Hbs Hsh Hne i).
Qed.

End BatchProperties.

(** ** What a pass collects *)

Section PassProperties.

Context {Feature Params Sharded : Type}.
Variable C : @Collaborators Feature Params Sharded.

Lemma concat_structure_ (cs : list (@Batch Feature)) :
  List.concat (map structure_ cs) = map ex_structure (List.concat cs).
Proof. unfold structure_. now rewrite concat_map. Qed.


(** An iterator without end gives as many batches as are asked for. *)
Lemma consumed_total (next : nat -> option (@Batch Feature)) (len : nat) :
  (forall i, exists b, next i = Some b /\ List.length b = len) ->
  forall n i,
    List.length (consumed next n i) = n
    /\ List.length (List.concat (consumed next n i)) = (n * len)%nat.
Proof.
  intros Htot. induction n as [| n IH]; intros i; cbn [consumed].
  - split; reflexivity.
  - destruct (Htot i) as (b & -> & Hb). destruct (IH (S i)) as (H1 & H2).
    cbn. rewrite length_app, H1, H2, Hb. split; lia.
Qed.


(** X4. In every mode the variables after a pass are the result of one
    optimizer step per consumed batch, in the order of the stream, each on
    the feed of its batch; the counter of the progress bar is the number of
    these steps. *)
Theorem pass_steps_optimizer_once_per_batch (args : @Args Sharded)
    (gen : list Example) (mode : Mode) (num_iters : Z) (p : Params) :
  0 < batch_size args ->
  let cs :=
    consumed (batch_dataset_generator C gen args (mode_eqb mode test))
             (Z.to_nat (num_batches num_iters (batch_size args))) 0 in
  exists st,
    loop_run C args gen mode num_iters p =
      Ok (fold_left (fun q b => minimize C q (feed_dict args mode b)) cs p, st)
    /\ t_n st = List.length cs.
Proof.
  intros Hbs cs.
  rewrite (loop_run_ok C args gen mode num_iters p Hbs).
  destruct (for_batches_consumed C args mode
              (batch_dataset_generator C gen args (mode_eqb mode test))
              (Z.to_nat (num_batches num_iters (batch_size args))) 0 p
              loop_init) as (Ht & _ & _ & Hp).
  fold cs in Ht, Hp.
  destruct (for_batches C args mode _ _ 0 p loop_init) as [p' st].
  cbn [fst snd] in Ht, Hp. exists st. subst p'. split; [reflexivity |].
  exact Ht.
Qed.

(** X5. A training or validation pass with [--shuffle] over a generator that
    yields at least one example never meets the end of its dataset: it
    processes all the planned batches and collects
    [num_batches * batch_size] examples, at least [num_iters] and in general
    more than the generator yields in one pass. *)
Theorem shuffled_pass_runs_all_batches (args : @Args Sharded)
    (gen : list Example) (mode : Mode) (num_iters : Z) (p : Params) :
  0 < batch_size args ->
  shuffle args = true ->
  gen <> [] ->
  mode <> test ->
  let planned := Z.to_nat (num_batches num_iters (batch_size args)) in
  exists p' st,
    loop_run C args gen mode num_iters p = Ok (p', st)
    /\ t_n st = planned
    /\ List.length (r_structures (loop_result st))
       = (planned * Z.to_nat (batch_size args))%nat
    /\ num_iters <= Z.of_nat (List.length (r_structures (loop_result st))).
Proof.
  intros Hbs Hsh Hne Hmode planned.
  rewrite (loop_run_ok C args gen mode num_iters p Hbs).
  assert (Hm : mode_eqb mode test = false)
    by (destruct mode; try reflexivity; congruence).
  rewrite Hm.
  set (next := batch_dataset_generator C gen args false).
  assert (Htot : forall i, exists b,
             next i = Some b /\ List.length b = Z.to_nat (batch_size args)).
  { intros i.
    destruct (shuffled_batch_full C args Hbs Hsh Hne i)
      as (b & H1 & H2 & _).
    now exists b. }
  destruct (consumed_total next Htot planned 0) as (Hn & Hlen).
  destruct (for_batches_consumed C args mode next planned 0 p loop_init)
    as (Ht & Hs & _ & _).
  fold planned.
  destruct (for_batches C args mode next planned 0 p loop_init) as [p' st].
  cbn [snd] in Ht, Hs. exists p', st.
  split; [reflexivity |]. split; [rewrite Ht, Hn; reflexivity |].
  cbn [loop_result r_structures].
  rewrite Hs, concat_structure_, length_app, length_map, Hlen.
  cbn [loop_init structures List.length Nat.add].
  split; [reflexivity |].
  pose proof (num_batches_ceil num_iters Hbs) as Hceil.
  unfold planned. nia.
Qed.

(** X6. A pass over a generator that yields nothing (a test pass, or a pass
    with [--shuffle]) ends at its first batch without an error: it returns
    empty columns and a mean loss of 0, and leaves the variables alone. *)
Theorem empty_dataset_pass (args : @Args Sharded) (generator : GenCall)
    (mode : Mode) (num_iters : Z) (w : @World Params) :
  0 < batch_size args ->
  dataset_generator C generator = [] ->
  mode = test \/ shuffle args = true ->
  fst (__loop C args generator mode num_iters w) =
    Ok {| r_structures := []; r_logits := []; r_preds := []; r_labels := [];
          r_losses := []; r_epoch_loss := 0 |}
  /\ sess (snd (__loop C args generator mode num_iters w)) = sess w.
Proof.
  intros Hbs Hgen Hmode.
  unfold __loop, bind, modify. cbn [sess record].
  rewrite (loop_run_ok C args _ mode num_iters (sess w) Hbs), Hgen.
  assert (Hnone : batch_dataset_generator C [] args (mode_eqb mode test) 0%nat
                  = None).
  { unfold batch_dataset_generator, dataset_batch, dataset_elements.
    destruct (Z.to_nat (batch_size args)) as [| bs] eqn:E; [lia |].
    destruct Hmode as [-> | Hsh].
    - reflexivity.
    - rewrite Hsh. destruct (negb (mode_eqb mode test)); reflexivity. }
  destruct (Z.to_nat (num_batches num_iters (batch_size args))) as [| n];
    cbn [for_batches]; [| rewrite Hnone]; split; reflexivity.
Qed.

End PassProperties.

(** ** Columns and bounds of a pass *)

Lemma data_frame_rows (ss : list string) (ts ps : list Z) (ls : list Q) :
  List.length ts = List.length ss ->
  List.length ps = List.length ss ->
  List.length ls = List.length ss ->
  List.length (data_frame ss ts ps ls) = List.length ss
  /\ map row_structure (data_frame ss ts ps ls) = ss
  /\ map row_true (data_frame ss ts ps ls) = ts
  /\ map row_pred (data_frame ss ts ps ls) = ps
  /\ map row_logits (data_frame ss ts ps ls) = ls.
Proof.
  revert ts ps ls. induction ss as [| s ss IH];
    intros [| t ts] [| q ps] [| l ls] Ht Hp Hl; try discriminate.
  - repeat split.
  - simpl in Ht, Hp, Hl.
    destruct (IH ts ps ls ltac:(lia) ltac:(lia) ltac:(lia))
      as (H1 & H2 & H3 & H4 & H5).
    cbn. rewrite H1, H2, H3, H4, H5. repeat split.
Qed.

Lemma Qsum_nonneg (l : list Q) :
  (forall x, In x l -> (0 <= x)%Q) -> (0 <= Qsum l)%Q.
Proof.
  induction l as [| x l IH]; intros H; simpl.
  - apply Qle_refl.
  - assert (0 <= x)%Q by (apply H; now left).
    assert (0 <= Qsum l)%Q by (apply IH; intros y Hy; apply H; now right).
    lra.
Qed.

Lemma Qsum_le_length (l : list Q) :
  (forall x, In x l -> (x <= 1)%Q) ->
  (Qsum l <= inject_Z (Z.of_nat (List.length l)))%Q.
Proof.
  induction l as [| x l IH]; intros H.
  - apply Qle_refl.
  - assert (x <= 1)%Q by (apply H; now left).
    assert (Qsum l <= inject_Z (Z.of_nat (List.length l)))%Q
      by (apply IH; intros y Hy; apply H; now right).
    cbn [List.length Qsum fold_right].
    rewrite Nat2Z.inj_succ. unfold Z.succ. rewrite inject_Z_plus.
    change (fold_right Qplus 0%Q l) with (Qsum l).
    setoid_replace (inject_Z 1) with 1%Q by reflexivity. lra.
Qed.

Lemma np_mean_nonneg (l : list Q) :
  (forall x, In x l -> (0 <= x)%Q) -> (0 <= np_mean l)%Q.
Proof.
  intros H. unfold np_mean, Qdiv.
  apply Qmult_le_0_compat; [now apply Qsum_nonneg |].
  apply Qinv_le_0_compat.
  unfold Qle, inject_Z. simpl. lia.
Qed.

Lemma np_mean_le_1 (l : list Q) :
  (forall x, In x l -> (x <= 1)%Q) -> (np_mean l <= 1)%Q.
Proof.
  intros H. unfold np_mean. destruct l as [| x l].
  - discriminate.
  - apply Qle_shift_div_r.
    + unfold Qlt, inject_Z. simpl. lia.
    + rewrite Qmult_1_l. now apply Qsum_le_length.
Qed.

Lemma incr_mean_bounds (mean value : Q) (i : nat) :
  ((0 <= mean -> 0 <= value -> 0 <= incr_mean mean value i)
   /\ (mean <= 1 -> value <= 1 -> incr_mean mean value i <= 1))%Q.
Proof.
  unfold incr_mean, Qdiv.
  set (k := inject_Z (Z.of_nat i + 1)).
  assert (Hk : (1 <= k)%Q) by (unfold k, Qle, inject_Z; simpl; lia).
  assert (Hinv : (k * / k == 1)%Q) by (apply Qmult_inv_r; lra).
  assert (Hpos : (0 < / k)%Q) by (apply Qinv_lt_0_compat; lra).
  set (t := (/ k)%Q) in *.
  assert (Ht : (t <= 1)%Q) by nra.
  split; intros Hm Hv; nra.
Qed.

Section ColumnProperties.

Context {Feature Params Sharded : Type}.
Variable C : @Collaborators Feature Params Sharded.

Lemma for_batches_preserves (P : LoopState -> Prop) (args : @Args Sharded)
    mode next :
  (forall i b (p : Params) st,
     P st -> P (accumulate i b (conv_model C p (feed_dict args mode b)) st)) ->
  forall n i (p : Params) st,
    P st -> P (snd (for_batches C args mode next n i p st)).
Proof.
  intros Hstep. induction n as [| n IH]; intros i p st Hst; simpl.
  - exact Hst.
  - destruct (next i) as [b |]; simpl; [| exact Hst].
    apply IH. now apply Hstep.
Qed.

(** X7. When the model returns one logit, one prediction and one loss per
    example of the batch it is fed, the columns that a pass returns have all
    the same length, and the result table built from them has one row per
    collected example, with the columns as they were returned. *)
Theorem pass_columns_are_aligned (args : @Args Sharded)
    (gen : list Example) (mode : Mode) (num_iters : Z) (p : Params) :
  (forall q fd,
     List.length (logit (conv_model C q fd)) = List.length (label_placeholder fd)
     /\ List.length (pred (conv_model C q fd))
        = List.length (label_placeholder fd)
     /\ List.length (loss (conv_model C q fd))
        = List.length (label_placeholder fd)) ->
  0 < batch_size args ->
  exists p' st,
    loop_run C args gen mode num_iters p = Ok (p', st)
    /\ let r := loop_result st in
       let df := data_frame (r_structures r) (r_labels r) (r_preds r)
                            (r_logits r) in
       List.length (r_logits r) = List.length (r_structures r)
       /\ List.length (r_preds r) = List.length (r_structures r)
       /\ List.length (r_labels r) = List.length (r_structures r)
       /\ List.length (r_losses r) = List.length (r_structures r)
       /\ List.length df = List.length (r_structures r)
       /\ map row_structure df = r_structures r
       /\ map row_true df = r_labels r
       /\ map row_pred df = r_preds r
       /\ map row_logits df = r_logits r.
Proof.
  intros Hwf Hbs.
  rewrite (loop_run_ok C args gen mode num_iters p Hbs).
  set (next := batch_dataset_generator C gen args (mode_eqb mode test)).
  set (n := Z.to_nat (num_batches num_iters (batch_size args))).
  pose (P := fun st : LoopState =>
               List.length (logits st) = List.length (structures st)
               /\ List.length (preds st) = List.length (structures st)
               /\ List.length (labels st) = List.length (structures st)
               /\ List.length (List.concat (losses st))
                  = List.length (structures st)).
  assert (HP : P (snd (for_batches C args mode next n 0 p loop_init))).
  { apply for_batches_preserves.
    - intros i b q st (H1 & H2 & H3 & H4).
      destruct (Hwf q (feed_dict args mode b)) as (W1 & W2 & W3).
      unfold P. cbn [accumulate logits preds labels losses structures].
      rewrite concat_app. cbn [List.concat].
      rewrite app_nil_r, !length_app, W1, W2, W3, H1, H2, H3, H4.
      cbn [feed_dict label_placeholder]. unfold label_, structure_.
      rewrite !length_map. repeat split; reflexivity.
    - unfold P. repeat split. }
  destruct (for_batches C args mode next n 0 p loop_init) as [p' st].
  cbn [snd] in HP. destruct HP as (H1 & H2 & H3 & H4).
  exists p', st. split; [reflexivity |].
  cbn [loop_result r_structures r_logits r_preds r_labels r_losses].
  destruct (data_frame_rows (structures st) (labels st) (preds st) (logits st)
              H3 H2 H1) as (D1 & D2 & D3 & D4 & D5).
  repeat split; assumption.
Qed.

(** X8. When the losses that the model returns are not negative and its
    accuracies lie between 0 and 1, so do the running means of a pass:
    [0 <= epoch_loss] and [0 <= epoch_acc <= 1], whatever the iterator and
    the number of batches. *)
Theorem running_means_stay_in_range (args : @Args Sharded) (mode : Mode)
    (next_element : nat -> option Batch) (n : nat) (p : Params) :
  (forall q fd x, In x (loss (conv_model C q fd)) -> (0 <= x)%Q) ->
  (forall q fd x, In x (accuracy (conv_model C q fd)) -> (0 <= x <= 1)%Q) ->
  let st := snd (for_batches C args mode next_element n 0 p loop_init) in
  (0 <= epoch_loss st)%Q /\ (0 <= epoch_acc st <= 1)%Q.
Proof.
  intros Hloss Hacc st.
  pose (P := fun s : LoopState =>
               (0 <= epoch_loss s)%Q /\ (0 <= epoch_acc s <= 1)%Q).
  change (P st). unfold st. apply for_batches_preserves.
  - intros i b q s (Hl & Ha0 & Ha1). unfold P.
    cbn [accumulate epoch_loss epoch_acc].
    set (out := conv_model C q (feed_dict args mode b)).
    assert (0 <= np_mean (loss out))%Q
      by (apply np_mean_nonneg; intros x Hx; exact (Hloss _ _ x Hx)).
    assert (0 <= np_mean (accuracy out))%Q
      by (apply np_mean_nonneg; intros x Hx; exact (proj1 (Hacc _ _ x Hx))).
    assert (np_mean (accuracy out) <= 1)%Q
      by (apply np_mean_le_1; intros x Hx; exact (proj2 (Hacc _ _ x Hx))).
    split; [| split].
    + now apply (proj1 (incr_mean_bounds (epoch_loss s) (np_mean (loss out)) i)).
    + now apply (proj1 (incr_mean_bounds (epoch_acc s)
                          (np_mean (accuracy out)) i)).
    + now apply (proj2 (incr_mean_bounds (epoch_acc s)
                          (np_mean (accuracy out)) i)).
  - unfold P. cbn. split; [| split]; lra.
Qed.

End ColumnProperties.

(** ** [compute_accuracy] and the loss of [conv_model] *)



Lemma Qsum_scale (l : list Q) (e b : Q) :
  (Qsum (map (fun x => x / e * b) l) == Qsum l / e * b)%Q.
Proof.
  induction l as [| x l IH]; cbn [map Qsum fold_right].
  - unfold Qdiv. ring.
  - change (fold_right Qplus 0%Q (map (fun x => x / e * b) l))%Q
      with (Qsum (map (fun x => x / e * b) l))%Q.
    change (fold_right Qplus 0%Q l) with (Qsum l).
    rewrite IH. unfold Qdiv. ring.
Qed.

Section LossProperties.

Variables nll_pos nll_neg : Q -> Q.

(** The sum of the weighted cross entropies of a batch whose examples all
    have the cross entropy [c]. *)
Lemma uniform_weighted_sum (target : list Z) (logits : list Q) (w c : Q) :
  Forall2 (fun t x => (t = 0 /\ (nll_neg x == c)%Q)
                      \/ (t = 1 /\ (nll_pos x == c)%Q)) target logits ->
  (Qsum (weighted_cross_entropy_with_logits nll_pos nll_neg
           (map inject_Z target) logits w)
   == c * (inject_Z (count_nonzero target) * w
           + (inject_Z (Z.of_nat (List.length target))
              - inject_Z (count_nonzero target))))%Q
  /\ 0 <= count_nonzero target <= Z.of_nat (List.length target)
  /\ List.length logits = List.length target.
Proof.
  unfold weighted_cross_entropy_with_logits, count_nonzero.
  induction 1 as [| t x ts xs Htx _ IH].
  - cbn. split; [ring | split; [lia | reflexivity]].
  - destruct IH as (IH & Hc & Hl).
    cbn [map combine Qsum fold_right fst snd List.length filter].
    match goal with
    | |- ((_ + fold_right Qplus 0 ?l == _)%Q /\ _) =>
        change (fold_right Qplus 0%Q l) with (Qsum l)
    end.
    rewrite IH. rewrite Nat2Z.inj_succ. unfold Z.succ.
    rewrite inject_Z_plus.
    setoid_replace (inject_Z 1) with 1%Q by reflexivity.
    destruct Htx as [(-> & Hx) | (-> & Hx)]; cbn [Z.eqb negb List.length].
    + rewrite Hx. split; [| split; [lia | now rewrite Hl]].
      setoid_replace (inject_Z 0) with 0%Q by reflexivity. ring.
    + rewrite Hx. rewrite Nat2Z.inj_succ. unfold Z.succ.
      rewrite inject_Z_plus.
      setoid_replace (inject_Z 1) with 1%Q by reflexivity.
      split; [ring | split; [lia | now rewrite Hl]].
Qed.

(** X10. The loss of [conv_model] is reweighted so that its batch mean does
    not depend on the ratio: over a non-empty batch of 0/1 labels whose
    examples all have the same cross entropy [c], the mean of the returned
    losses is [c] for every positive [neg_to_pos_ratio]. *)
Theorem reweighted_loss_mean_is_ratio_free (target : list Z)
    (logits : list Q) (ratio : Z) (c : Q) :
  0 < ratio ->
  target <> [] ->
  Forall2 (fun t x => (t = 0 /\ (nll_neg x == c)%Q)
                      \/ (t = 1 /\ (nll_pos x == c)%Q)) target logits ->
  (np_mean (conv_model_loss nll_pos nll_neg target logits ratio) == c)%Q.
Proof.
  intros Hr Hne Hall.
  destruct (uniform_weighted_sum (inject_Z ratio) Hall) as (Hsum & Hc & Hl).
  unfold np_mean, conv_model_loss.
  rewrite length_map. unfold weighted_cross_entropy_with_logits at 2.
  rewrite length_map, length_combine, length_map, Hl, Nat.min_id.
  rewrite Qsum_scale, Hsum.
  set (b := inject_Z (Z.of_nat (List.length target))).
  set (np := inject_Z (count_nonzero target)).
  set (w := inject_Z ratio).
  assert (Hb : (1 <= b)%Q).
  { unfold b, Qle, inject_Z. simpl.
    destruct target; [congruence | simpl List.length; lia]. }
  assert (Hw : (1 <= w)%Q) by (unfold w, Qle, inject_Z; simpl; lia).
  assert (Hnp0 : (0 <= np)%Q) by (unfold np, Qle, inject_Z; simpl; lia).
  assert (Hnp1 : (np <= b)%Q) by (unfold np, b, Qle, inject_Z; simpl; lia).
  assert (He : (0 < np * w + (b - np))%Q) by nra.
  field. split; lra.
Qed.

End LossProperties.

(** ** The layers of [conv_model] *)

Lemma list_mul_pair_nth (k n : nat) :
  (n < 2 * k)%nat ->
  nth_error (List.concat (repeat [0; 1] k)) n = Some (Z.of_nat (n mod 2)).
Proof.
  revert n. induction k as [| k IH]; intros n Hn; [lia |].
  cbn [repeat List.concat app].
  destruct n as [| [| n]]; [reflexivity | reflexivity |].
  cbn [nth_error]. rewrite IH by lia. do 2 f_equal.
  change (S (S n)) with (2 + n)%nat.
  rewrite <- (Nat.Div0.add_mod_idemp_l 2 n 2). reflexivity.
Qed.

Lemma list_mul_single_length {A} (x : A) (k : Z) :
  List.length (list_mul [x] k) = Z.to_nat k.
Proof.
  unfold list_mul. induction (Z.to_nat k) as [| n IH]; simpl; [reflexivity |].
  now rewrite IH.
Qed.

(** X11. For [num_conv >= 0] convolution layers, [conv_model] asks for
    [num_conv] filter counts that double from 32, and for [num_conv] pool
    sizes and strides; the list of pool positions alternates 0, 1 and has
    [num_conv] entries when [num_conv] is even but one more when it is
    odd. *)
Theorem conv_layers_shapes (num_conv num_final_fc_layers : Z) :
  0 <= num_conv ->
  let L := conv_layers num_conv num_final_fc_layers in
  List.length (conv_filters L) = Z.to_nat num_conv
  /\ (forall n, (n < Z.to_nat num_conv)%nat ->
        nth n (conv_filters L) 0 = 32 * 2 ^ Z.of_nat n)
  /\ List.length (max_pool_sizes L) = Z.to_nat num_conv
  /\ List.length (max_pool_strides L) = Z.to_nat num_conv
  /\ Z.of_nat (List.length (max_pool_positions L))
     = num_conv + num_conv mod 2
  /\ (forall n, (n < List.length (max_pool_positions L))%nat ->
        nth_error (max_pool_positions L) n = Some (Z.of_nat (n mod 2)))
  /\ List.length (top_fc_units L) = Z.to_nat num_final_fc_layers.
Proof.
  intros Hn L. unfold L, conv_layers.
  cbn [conv_filters max_pool_sizes max_pool_strides max_pool_positions
       top_fc_units].
  assert (Hlen : forall k : nat,
             List.length (List.concat (repeat [0; 1] k)) = (2 * k)%nat).
  { induction k as [| k IH]; simpl; [reflexivity |]. rewrite IH. lia. }
  split; [| split; [| split; [| split; [| split; [| split]]]]].
  - unfold range. now rewrite !length_map, length_seq, Z.sub_0_r.
  - intros n Hlt. unfold range. rewrite Z.sub_0_r, map_map.
    rewrite (nth_indep _ 0 ((fun k => 32 * 2 ^ (0 + Z.of_nat k)) 0%nat))
      by (now rewrite length_map, length_seq).
    rewrite (map_nth (fun k => 32 * 2 ^ (0 + Z.of_nat k))).
    rewrite seq_nth by exact Hlt. reflexivity.
  - apply list_mul_single_length.
  - apply list_mul_single_length.
  - unfold list_mul. rewrite Hlen.
    rewrite Z.quot_div_nonneg by lia.
    pose proof (Z.div_mod (num_conv + 1) 2 ltac:(lia)).
    pose proof (Z.mod_pos_bound (num_conv + 1) 2 ltac:(lia)).
    pose proof (Z.div_mod num_conv 2 ltac:(lia)).
    pose proof (Z.mod_pos_bound num_conv 2 ltac:(lia)).
    assert (0 <= (num_conv + 1) / 2) by (apply Z.div_pos; lia).
    lia.
  - intros n Hlt. unfold list_mul in *. rewrite Hlen in Hlt.
    now apply list_mul_pair_nth.
  - apply list_mul_single_length.
Qed.

(** ** The run info and the locals across the epochs *)

Lemma dict_get_set_same (d : RunInfo) k v :
  dict_get (dict_set d k v) k = Some v.
Proof.
  induction d as [| [k' v'] d IH]; simpl.
  - now rewrite String.eqb_refl.
  - destruct (String.eqb k k') eqn:E; simpl.
    + now rewrite String.eqb_refl.
    + now rewrite E.
Qed.

Lemma dict_get_set_other (d : RunInfo) k v k' :
  k <> k' -> dict_get (dict_set d k v) k' = dict_get d k'.
Proof.
  intros Hne. induction d as [| [k0 v0] d IH]; simpl.
  - destruct (String.eqb_spec k' k); [congruence | reflexivity].
  - destruct (String.eqb_spec k k0) as [-> | Hk]; simpl.
    + destruct (String.eqb_spec k' k0); [congruence | reflexivity].
    + destruct (String.eqb_spec k' k0); [reflexivity | exact IH].
Qed.

(** What one epoch does to [ckpt] and to the three keys of the run info. *)
Lemma after_loops_locals_store {Sharded} (args : @Args Sharded) epoch c v l :
  let r := after_loops_locals args epoch c v l in
  let improved :=
    (use_best args || early_stopping args) && loss_lt v (best_val_loss l) in
  let before_last := (epoch =? num_epochs args - 1) && negb (use_best args) in
  ckpt (fst r)
  = (if improved || before_last || save_all_ckpts args then Some c else ckpt l)
  /\ dict_get (run_info (fst r)) "val_losses"
     = Some (JLosses (per_epoch_val_losses l ++ [v]))
  /\ dict_get (run_info (fst r)) "val_best_loss"
     = (if improved then Some (JNum v)
        else dict_get (run_info l) "val_best_loss")
  /\ dict_get (run_info (fst r)) "best_ckpt"
     = (if improved || before_last then Some (JStr c)
        else dict_get (run_info l) "best_ckpt").
Proof.
  unfold after_loops_locals. cbn.
  destruct (use_best args), (early_stopping args),
    (loss_lt v (best_val_loss l)), (epoch =? num_epochs args - 1),
    (save_all_ckpts args); cbn;
    destruct (loss_ge v (prev_val_loss l)); cbn;
    repeat (rewrite dict_get_set_same
            || rewrite dict_get_set_other by (intro; discriminate));
    repeat split; reflexivity.
Qed.

Section EpochProperties.

Context {Feature Params Sharded : Type}.
Variable C : @Collaborators Feature Params Sharded.

(** A property of the locals that every epoch keeps holds after the loop. *)
Lemma for_epochs_keeps (P : Locals -> Prop) (args : @Args Sharded) ns :
  (forall epoch v l,
     P l -> P (fst (after_loops_locals args epoch (ckpt_path args epoch) v l))) ->
  forall epochs l (w : @World Params) lf wf,
    P l -> for_epochs C args ns epochs l w = (Ok lf, wf) -> P lf.
Proof.
  intros Hstep. induction epochs as [| epoch rest IH]; intros l w lf wf Hl H.
  - inversion H. now subst.
  - cbn [for_epochs] in H. apply bind_inv_ok in H.
    destruct H as (r & w1 & Hbody & H).
    apply (epoch_body_inv C) in Hbody. destruct Hbody as (v & ->).
    pose proof (Hstep epoch v l Hl) as Hl'.
    destruct (snd (after_loops_locals args epoch (ckpt_path args epoch) v l)).
    + inversion H. now subst.
    + now apply IH in H.
Qed.

(** X12. Under [use_best] or [early_stopping], after a completed epoch loop
    that ran at least one epoch, [best_val_loss] is the least of the recorded
    validation losses, and it is the value of [val_best_loss] in the run
    info. *)
Theorem best_loss_is_least_recorded (args : @Args Sharded) ns epochs
    (w : @World Params) lf wf :
  use_best args || early_stopping args = true ->
  for_epochs C args ns epochs locals_init w = (Ok lf, wf) ->
  per_epoch_val_losses lf <> [] ->
  exists m,
    best_val_loss lf = Fin m
    /\ In m (per_epoch_val_losses lf)
    /\ (forall v, In v (per_epoch_val_losses lf) -> (m <= v)%Q)
    /\ dict_get (run_info lf) "val_best_loss" = Some (JNum m).
Proof.
  intros Hflag Hrun Hne.
  pose (P := fun l : Locals =>
               (per_epoch_val_losses l = [] /\ best_val_loss l = Inf)
               \/ exists m,
                    best_val_loss l = Fin m
                    /\ In m (per_epoch_val_losses l)
                    /\ (forall v, In v (per_epoch_val_losses l) -> (m <= v)%Q)
                    /\ dict_get (run_info l) "val_best_loss" = Some (JNum m)).
  assert (HP : P lf).
  { apply (for_epochs_keeps P args ns) with (epochs := epochs) (l := locals_init)
      (w := w) (wf := wf); [| left; split; reflexivity | exact Hrun].
    intros epoch v l Hl.
    destruct (after_loops_locals_rules args epoch (ckpt_path args epoch) v l)
      as (_ & _ & Hbest & Hhist).
    destruct (after_loops_locals_store args epoch (ckpt_path args epoch) v l)
      as (_ & _ & Hkey & _).
    rewrite Hflag in Hbest, Hkey. cbn [andb] in Hbest, Hkey.
    right. rewrite Hbest, Hhist, Hkey.
    destruct Hl as [(Hnil & Hinf) | (m & Hm & Hin & Hle & Hk)].
    - rewrite Hinf, Hnil. cbn. exists v. repeat split.
      + now left.
      + intros x [<- | []]. apply Qle_refl.
    - rewrite Hm. cbn [loss_lt].
      destruct (Qlt_bool v m) eqn:E.
      + apply Qlt_bool_iff in E. exists v. repeat split.
        * apply in_or_app. right. now left.
        * intros x Hx. apply in_app_or in Hx.
          destruct Hx as [Hx | [<- | []]]; [| apply Qle_refl].
          specialize (Hle x Hx). lra.
      + exists m. repeat split; [| | exact Hk].
        * apply in_or_app. now left.
        * intros x Hx. apply in_app_or in Hx.
          destruct Hx as [Hx | [<- | []]]; [now apply Hle |].
          unfold Qlt_bool in E. apply negb_false_iff in E.
          now apply Qle_bool_iff in E. }
  destruct HP as [(Hnil & _) | HP]; [congruence | exact HP].
Qed.



End EpochProperties.

(** ** Early stopping and the binding of [ckpt] *)

Lemma range_cons (a b : Z) : a < b -> range a b = a :: range (a + 1) b.
Proof.
  intros H. unfold range.
  replace (Z.to_nat (b - a)) with (S (Z.to_nat (b - (a + 1)))) by lia.
  cbn [seq map]. rewrite <- seq_shift, map_map. f_equal; [lia |].
  apply map_ext. intros k. lia.
Qed.

Lemma range_nil (a b : Z) : b <= a -> range a b = [].
Proof.
  intros H. unfold range. now replace (Z.to_nat (b - a)) with 0%nat by lia.
Qed.

Lemma range_in (a b x : Z) : a <= x < b -> In x (range a b).
Proof.
  intros H. unfold range. apply in_map_iff.
  exists (Z.to_nat (x - a)). split; [lia |]. apply in_seq. lia.
Qed.

(** All recorded losses but the last improve strictly on the one before. *)
Lemma stops_at_first_rise_decreasing (vs : list Q) :
  forall prev allowed,
    stops_at_first_rise prev vs allowed ->
    forall i v v',
      nth_error vs i = Some v -> nth_error vs (S i) = Some v' ->
      (S (S i) < List.length vs)%nat -> (v' < v)%Q.
Proof.
  induction vs as [| x rest IH]; intros prev allowed H i v v' Hv Hv' Hlen.
  - destruct i; discriminate.
  - destruct allowed as [| a]; [contradiction |]. cbn [stops_at_first_rise] in H.
    destruct (loss_ge x prev).
    + subst rest. destruct i; discriminate.
    + destruct i as [| i].
      * cbn in Hv, Hv'. inversion Hv; subst x.
        destruct rest as [| y rest']; [discriminate |].
        cbn in Hv'. inversion Hv'; subst y.
        destruct a as [| a']; [contradiction |].
        cbn [stops_at_first_rise loss_ge] in H.
        destruct (Qle_bool v v') eqn:E.
        -- subst rest'. cbn in Hlen. lia.
        -- apply Qnot_le_lt. intros Hle. apply Qle_bool_iff in Hle. congruence.
      * cbn in Hv, Hv', Hlen. apply (IH _ _ H i v v' Hv Hv'). lia.
Qed.

Section StoppingProperties.

Context {Feature Params Sharded : Type}.
Variable C : @Collaborators Feature Params Sharded.

(** The first epoch of a completed loop: its locals, and either the end of
    the loop or the loop over the other epochs. *)
Lemma for_epochs_cons_inv (args : @Args Sharded) ns epoch rest l
    (w : @World Params) lf wf :
  for_epochs C args ns (epoch :: rest) l w = (Ok lf, wf) ->
  exists v w1,
    let r := after_loops_locals args epoch (ckpt_path args epoch) v l in
    (snd r = true /\ lf = fst r)
    \/ (snd r = false /\ for_epochs C args ns rest (fst r) w1 = (Ok lf, wf)).
Proof.
  intros H. cbn [for_epochs] in H. apply bind_inv_ok in H.
  destruct H as (r & w1 & Hbody & H).
  apply (epoch_body_inv C) in Hbody. destruct Hbody as (v & ->).
  exists v, w1. cbn zeta.
  destruct (snd (after_loops_locals args epoch (ckpt_path args epoch) v l)).
  - left. inversion H. now split.
  - right. now split.
Qed.

Lemma for_epochs_stops_at_first_rise (args : @Args Sharded) ns :
  early_stopping args = true ->
  forall epochs l (w : @World Params) lf wf,
    for_epochs C args ns epochs l w = (Ok lf, wf) ->
    exists vs,
      per_epoch_val_losses lf = (per_epoch_val_losses l ++ vs)%list
      /\ stops_at_first_rise (prev_val_loss l) vs (List.length epochs).
Proof.
  intros Hes. induction epochs as [| epoch rest IH]; intros l w lf wf H.
  - inversion H; subst. exists []. now rewrite app_nil_r.
  - apply for_epochs_cons_inv in H. destruct H as (v & w1 & H).
    destruct (after_loops_locals_rules args epoch (ckpt_path args epoch) v l)
      as (Hstop & Hprev & _ & Hhist).
    rewrite Hes in Hstop. cbn [andb] in Hstop. cbn zeta in H.
    destruct H as [(Hs & ->) | (Hs & H)].
    + exists [v]. split; [exact Hhist |].
      cbn [List.length stops_at_first_rise]. rewrite <- Hstop, Hs. reflexivity.
    + apply IH in H. destruct H as (vs & Hvs & Htr).
      exists (v :: vs). split.
      * rewrite Hvs, Hhist. now rewrite <- app_assoc.
      * cbn [List.length stops_at_first_rise]. rewrite <- Hstop, Hs.
        rewrite Hprev, Hs in Htr. exact Htr.
Qed.

(** X14. With [early_stopping], a completed training block has run the
    epochs up to and including the first one whose validation loss is not
    below the loss of the epoch before it, or all [num_epochs] epochs when
    there is none.  So every recorded loss but the last is strictly smaller
    than the one before it, and the loop never stops at its first epoch. *)
Theorem early_stopping_runs_to_first_rise (args : @Args Sharded)
    (w : @World Params) lf wf :
  early_stopping args = true ->
  training C args w = (Ok lf, wf) ->
  let vs := per_epoch_val_losses lf in
  stops_at_first_rise Inf vs (Z.to_nat (num_epochs args))
  /\ (forall i v v',
        nth_error vs i = Some v -> nth_error vs (S i) = Some v' ->
        (S (S i) < List.length vs)%nat -> (v' < v)%Q)
  /\ (2 <= num_epochs args -> (2 <= List.length vs)%nat).
Proof.
  intros Hes Hrun vs. unfold training in Hrun.
  apply bind_inv_ok in Hrun. destruct Hrun as (ns & w1 & _ & Hrun).
  apply (for_epochs_stops_at_first_rise args ns Hes) in Hrun.
  destruct Hrun as (vs' & Hvs & Htr). cbn in Hvs, Htr.
  unfold range in Htr. rewrite length_map, length_seq in Htr.
  replace (Z.to_nat (num_epochs args + 1 - 1)) with (Z.to_nat (num_epochs args))
    in Htr by lia.
  fold vs in Hvs. rewrite <- Hvs in Htr.
  split; [exact Htr |]. split.
  - exact (stops_at_first_rise_decreasing vs _ _ Htr).
  - intros Hn.
    destruct (Z.to_nat (num_epochs args)) as [| [| a]] eqn:E; try lia.
    destruct vs as [| x [| y rest]]; cbn in Htr |- *; try contradiction; lia.
Qed.

Lemma ckpt_stays_bound (args : @Args Sharded) ns epochs l
    (w : @World Params) lf wf :
  ckpt l <> None ->
  for_epochs C args ns epochs l w = (Ok lf, wf) -> ckpt lf <> None.
Proof.
  intros Hl H.
  apply (for_epochs_keeps C (fun l => ckpt l <> None) args ns)
    with (epochs := epochs) (l := l) (w := w) (wf := wf); try assumption.
  intros epoch v l0 Hl0.
  destruct (after_loops_locals_store args epoch (ckpt_path args epoch) v l0)
    as (Hc & _).
  rewrite Hc. now destruct (_ || _ || _).
Qed.

(** Without early stopping, the epoch before the last binds [ckpt] when
    [use_best] is off. *)
Lemma before_last_epoch_binds (args : @Args Sharded) ns :
  early_stopping args = false -> use_best args = false ->
  forall epochs l (w : @World Params) lf wf,
    In (num_epochs args - 1) epochs ->
    for_epochs C args ns epochs l w = (Ok lf, wf) -> ckpt lf <> None.
Proof.
  intros Hes Hub. induction epochs as [| epoch rest IH];
    intros l w lf wf Hin H; [contradiction |].
  apply for_epochs_cons_inv in H. destruct H as (v & w1 & H). cbn zeta in H.
  destruct (after_loops_locals_rules args epoch (ckpt_path args epoch) v l)
    as (Hstop & _).
  rewrite Hes in Hstop. cbn [andb] in Hstop.
  destruct H as [(Hs & _) | (_ & H)]; [congruence |].
  destruct Hin as [-> | Hin].
  - eapply ckpt_stays_bound; [| exact H].
    destruct (after_loops_locals_store args (num_epochs args - 1)
                (ckpt_path args (num_epochs args - 1)) v l) as (Hc & _).
    rewrite Hc, Hub, Z.eqb_refl. cbn. rewrite orb_true_r. discriminate.
  - eapply IH; [exact Hin | exact H].
Qed.

(** X15. After a completed training block of at least one epoch, the
    variable [ckpt] is bound exactly when [use_best], [early_stopping] or
    [save_all_ckpts] is on, or there are at least two epochs; otherwise (one
    epoch, no flag) the test block has no checkpoint to use. *)
Theorem ckpt_bound_iff (args : @Args Sharded) (w : @World Params) lf wf :
  1 <= num_epochs args ->
  training C args w = (Ok lf, wf) ->
  ckpt lf <> None
  <-> (use_best args = true \/ early_stopping args = true
       \/ save_all_ckpts args = true \/ 2 <= num_epochs args).
Proof.
  intros Hn Hrun. unfold training in Hrun.
  apply bind_inv_ok in Hrun. destruct Hrun as (ns & w1 & _ & Hrun).
  rewrite (@range_cons 1 (num_epochs args + 1)) in Hrun by lia.
  pose proof Hrun as Hfirst.
  apply for_epochs_cons_inv in Hfirst. destruct Hfirst as (v & w2 & Hfirst).
  cbn zeta in Hfirst.
  destruct (after_loops_locals_store args 1 (ckpt_path args 1) v locals_init)
    as (Hc & _).
  cbn [best_val_loss locals_init loss_lt ckpt] in Hc. rewrite andb_true_r in Hc.
  split.
  - intros Hbound.
    destruct (use_best args) eqn:Hub; [now left |].
    destruct (early_stopping args) eqn:Hes; [now right; left |].
    destruct (save_all_ckpts args) eqn:Hsa; [now right; right; left |].
    right; right; right.
    destruct (Z.eq_dec (num_epochs args) 1) as [E | E]; [| lia].
    exfalso. apply Hbound.
    rewrite E in Hc, Hfirst. cbn in Hc.
    destruct Hfirst as [(_ & ->) | (_ & H)]; [exact Hc |].
    rewrite range_nil in H by lia.
    inversion H. subst. exact Hc.
  - intros Hflags.
    destruct (use_best args || early_stopping args || save_all_ckpts args)
      eqn:Hany.
    + assert (Hset : ckpt (fst (after_loops_locals args 1 (ckpt_path args 1) v
                                  locals_init)) <> None).
      { rewrite Hc.
        destruct (use_best args), (early_stopping args), (save_all_ckpts args);
          try discriminate Hany; cbn; rewrite ?orb_true_r; discriminate. }
      destruct Hfirst as [(_ & ->) | (_ & H)]; [exact Hset |].
      eapply ckpt_stays_bound; [exact Hset | exact H].
    + apply orb_false_iff in Hany. destruct Hany as (Hany & Hsa).
      apply orb_false_iff in Hany. destruct Hany as (Hub & Hes).
      destruct Hflags as [H | [H | [H | H]]]; try congruence.
      rewrite <- (@range_cons 1 (num_epochs args + 1)) in Hrun by lia.
      eapply (@before_last_epoch_binds args ns Hes Hub); [| exact Hrun].
      apply range_in. lia.
Qed.

(** X16. When [num_epochs] is not positive (valid sampling values, not
    test-only), no epoch runs and nothing is written; the test block then
    fails on its checkpoint: a missing key [best_ckpt] under [use_best], the
    unbound variable [ckpt] otherwise. *)
Theorem no_epoch_no_checkpoint (args : @Args Sharded) (w : @World Params) :
  test_only args = false ->
  num_epochs args <= 0 ->
  0 < max_pos_regions_per_ensemble (grid_config args) ->
  0 < neg_to_pos_ratio (grid_config args) ->
  training C args w = (Ok locals_init, w)
  /\ train_model C args w
     = (Err (if use_best args then KeyError "best_ckpt"
             else UnboundLocalError "ckpt"),
        set_sess (init C) w).
Proof.
  intros Hto Hn Hp Hr.
  assert (Htrain : forall w0 : @World Params,
             training C args w0 = (Ok locals_init, w0)).
  { intros w0. unfold training, bind, lift.
    rewrite (train_val_num_structures_ok C args Hp Hr).
    now rewrite range_nil by lia. }
  split; [apply Htrain |].
  unfold train_model. rewrite Hto. cbn [negb].
  unfold bind at 1. unfold modify at 1.
  rewrite (bind_ok _ _ _ (Htrain (set_sess (init C) w))).
  unfold testing. unfold bind at 1. unfold choose_checkpoint.
  rewrite Hto. cbn [negb].
  destruct (use_best args); reflexivity.
Qed.

End StoppingProperties.

(** ** Files written by the training block *)

Lemma file_get_cons_same {A} (fs : list (string * A)) p a :
  file_get ((p, a) :: fs) p = Some a.
Proof. simpl. now rewrite String.eqb_refl. Qed.

Lemma file_get_cons_keeps {A} (fs : list (string * A)) p a c :
  file_get fs c <> None -> file_get ((p, a) :: fs) c <> None.
Proof. intros H. simpl. now destruct (String.eqb c p). Qed.

Section FileProperties.

Context {Feature Params Sharded : Type}.
Variable C : @Collaborators Feature Params Sharded.

(** The loop touches no file. *)
Lemma __loop_files (args : @Args Sharded) g mode n (w : @World Params) :
  ckpt_files (snd (__loop C args g mode n w)) = ckpt_files w
  /\ run_info_files (snd (__loop C args g mode n w)) = run_info_files w.
Proof.
  unfold __loop, bind, modify. cbn [sess record].
  destruct (loop_run C args _ mode n (sess w)) as [[p st] | e]; split;
    reflexivity.
Qed.

(** The files after the statements that follow the loops: the checkpoints
    that existed still exist, the checkpoint of the epoch exists when one of
    the three saves took place, and the run info file holds the run info. *)
Lemma after_loops_world (args : @Args Sharded) epoch tr vr l
    (w : @World Params) :
  exists w',
    after_loops args epoch tr vr l w =
      (Ok (after_loops_locals args epoch (ckpt_path args epoch)
             (r_epoch_loss vr) l), w')
    /\ (forall c, file_get (ckpt_files w) c <> None ->
                  file_get (ckpt_files w') c <> None)
    /\ ((use_best args || early_stopping args)
        && loss_lt (r_epoch_loss vr) (best_val_loss l)
        || (epoch =? num_epochs args - 1) && negb (use_best args)
        || save_all_ckpts args = true ->
        file_get (ckpt_files w') (ckpt_path args epoch) <> None)
    /\ file_get (run_info_files w') (path_join (output_dir args) "run_info.json")
       = Some (run_info (fst (after_loops_locals args epoch
                                (ckpt_path args epoch) (r_epoch_loss vr) l))).
Proof.
  unfold after_loops, after_loops_locals, ckpt_path, _save,
    __update_and_write_run_info, __stats, bind, modify, ret.
  cbn -[file_get].
  destruct (use_best args), (early_stopping args),
    (loss_lt (r_epoch_loss vr) (best_val_loss l)),
    (epoch =? num_epochs args - 1), (save_all_ckpts args); cbn -[file_get];
    destruct (loss_ge (r_epoch_loss vr) (prev_val_loss l));
    cbn -[file_get]; eexists; (split; [reflexivity |]); cbn -[file_get];
    (split; [intros c Hc; repeat apply file_get_cons_keeps; exact Hc |]);
    (split; [intros Hsave; try discriminate Hsave;
             rewrite file_get_cons_same; discriminate
            | rewrite file_get_cons_same; reflexivity]).
Qed.

(** A property of the locals and the world that the loops and the
    statements after them keep holds after the epoch loop. *)
Lemma for_epochs_keeps_world (I : Locals -> @World Params -> Prop)
    (args : @Args Sharded) ns :
  (forall l w g mode n, I l w -> I l (snd (__loop C args g mode n w))) ->
  (forall epoch tr vr l w r w',
     I l w -> after_loops args epoch tr vr l w = (Ok r, w') -> I (fst r) w') ->
  forall epochs l w lf wf,
    I l w -> for_epochs C args ns epochs l w = (Ok lf, wf) -> I lf wf.
Proof.
  intros Hloop Hafter.
  induction epochs as [| epoch rest IH]; intros l w lf wf Hl H.
  - inversion H. now subst.
  - cbn [for_epochs] in H. apply bind_inv_ok in H.
    destruct H as (r & w3 & Hbody & H).
    unfold epoch_body in Hbody.
    apply bind_inv_ok in Hbody. destruct Hbody as (tr & w1 & E1 & Hbody).
    apply bind_inv_ok in Hbody. destruct Hbody as (vr & w2 & E2 & E3).
    assert (H1 : I l w1).
    { match type of E1 with
      | __loop _ _ ?g _ _ _ = _ =>
          pose proof (Hloop l w g train (fst ns) Hl) as Hx
      end.
      now rewrite E1 in Hx. }
    assert (H2 : I l w2).
    { match type of E2 with
      | __loop _ _ ?g _ _ _ = _ =>
          pose proof (Hloop l w1 g val (snd ns) H1) as Hx
      end.
      now rewrite E2 in Hx. }
    pose proof (Hafter _ _ _ _ _ _ _ H2 E3) as H3.
    destruct (snd r).
    + inversion H. now subst.
    + exact (IH _ _ _ _ H3 H).
Qed.

(** X17. After a completed training block, the checkpoint that the test
    block chooses, the [best_ckpt] entry under [use_best] and the variable
    [ckpt] otherwise, is always a checkpoint file that exists: once a
    checkpoint is chosen, restoring it cannot fail. *)
Theorem chosen_checkpoint_exists (args : @Args Sharded) (w : @World Params)
    lf wf c :
  test_only args = false ->
  training C args w = (Ok lf, wf) ->
  choose_checkpoint args lf wf = (Ok c, wf) ->
  exists p,
    file_get (ckpt_files wf) c = Some p
    /\ saver_restore c wf = (Ok tt, record (Restored c) (set_sess p wf)).
Proof.
  intros Hto Hrun Hchoose.
  pose (I := fun (l : Locals) (w0 : @World Params) =>
               (forall c0, ckpt l = Some c0 ->
                           file_get (ckpt_files w0) c0 <> None)
               /\ (forall c0, dict_get (run_info l) "best_ckpt"
                              = Some (JStr c0) ->
                              file_get (ckpt_files w0) c0 <> None)).
  assert (HI : I lf wf).
  { unfold training in Hrun. apply bind_inv_ok in Hrun.
    destruct Hrun as (ns & w1 & Hlift & Hrun).
    unfold lift in Hlift. inversion Hlift; subst w1.
    apply (for_epochs_keeps_world I args ns)
      with (epochs := range 1 (num_epochs args + 1)) (l := locals_init)
           (w := w); [| | split; intros c0 Hq; discriminate Hq | exact Hrun].
    - intros l w0 g mode n (Ha & Hb).
      destruct (__loop_files args g mode n w0) as (Hf & _).
      split; intros c0 Hq; rewrite Hf; [now apply Ha | now apply Hb].
    - intros epoch tr vr l w0 r w' (Ha & Hb) E.
      destruct (after_loops_world args epoch tr vr l w0)
        as (w2 & E' & Hkeep & Hsave & _).
      rewrite E' in E. inversion E; subst r w'.
      destruct (after_loops_locals_store args epoch (ckpt_path args epoch)
                  (r_epoch_loss vr) l) as (Hc & _ & _ & Hk).
      split; intros c0 Hq.
      + rewrite Hc in Hq.
        destruct (_ || _ || save_all_ckpts args) eqn:Hany.
        * inversion Hq; subst c0. now apply Hsave.
        * apply Hkeep. now apply Ha.
      + rewrite Hk in Hq.
        destruct ((use_best args || early_stopping args)
                  && loss_lt (r_epoch_loss vr) (best_val_loss l)
                  || (epoch =? num_epochs args - 1) && negb (use_best args))
          eqn:Hany.
        * inversion Hq; subst c0. apply Hsave. rewrite ?Hany. reflexivity.
        * apply Hkeep. now apply Hb. }
  destruct HI as (Ha & Hb).
  assert (Hex : file_get (ckpt_files wf) c <> None).
  { unfold choose_checkpoint in Hchoose. rewrite Hto in Hchoose.
    cbn [negb] in Hchoose.
    destruct (use_best args).
    - unfold lift, best_ckpt_of in Hchoose.
      destruct (dict_get (run_info lf) "best_ckpt") as [[| | s] |] eqn:E;
        try discriminate.
      inversion Hchoose; subst s. now apply Hb.
    - destruct (ckpt lf) as [c0 |] eqn:E; [| discriminate].
      unfold ret in Hchoose. inversion Hchoose; subst c0. now apply Ha. }
  destruct (file_get (ckpt_files wf) c) as [p |] eqn:E; [| congruence].
  exists p. split; [reflexivity |].
  unfold saver_restore. now rewrite E.
Qed.

(** X18. After a completed training block that ran at least one epoch, the
    file [run_info.json] of the output directory holds the run info as it is
    in memory, with all recorded validation losses under [val_losses]; a
    later test-only run whose [model_dir] is that directory chooses the
    checkpoint recorded under [best_ckpt]. *)
Theorem run_info_round_trip (args later : @Args Sharded)
    (w : @World Params) lf wf :
  1 <= num_epochs args ->
  training C args w = (Ok lf, wf) ->
  file_get (run_info_files wf) (path_join (output_dir args) "run_info.json")
  = Some (run_info lf)
  /\ dict_get (run_info lf) "val_losses"
     = Some (JLosses (per_epoch_val_losses lf))
  /\ (test_only later = true -> model_dir later = output_dir args ->
      forall c l,
        best_ckpt_of (run_info lf) = Ok c ->
        choose_checkpoint later l wf = (Ok c, wf)).
Proof.
  intros Hn Hrun.
  pose (I := fun (l : Locals) (w0 : @World Params) =>
               (per_epoch_val_losses l = []
                \/ (file_get (run_info_files w0)
                      (path_join (output_dir args) "run_info.json")
                    = Some (run_info l)
                    /\ dict_get (run_info l) "val_losses"
                       = Some (JLosses (per_epoch_val_losses l))))
               /\ (forall c0, dict_get (run_info l) "best_ckpt"
                              = Some (JStr c0) ->
                              file_get (ckpt_files w0) c0 <> None)).
  assert (Htrain := Hrun).
  unfold training in Hrun. apply bind_inv_ok in Hrun.
  destruct Hrun as (ns & w1 & Hlift & Hrun).
  unfold lift in Hlift. inversion Hlift; subst w1.
  assert (HI : I lf wf).
  { apply (for_epochs_keeps_world I args ns)
      with (epochs := range 1 (num_epochs args + 1)) (l := locals_init)
           (w := w);
      [| | split; [now left | intros c0 Hq; discriminate Hq] | exact Hrun].
    - intros l w0 g mode n (Ha & Hb).
      destruct (__loop_files args g mode n w0) as (Hf & Hr).
      split; [| intros c0 Hq; rewrite Hf; now apply Hb].
      destruct Ha as [Ha | (Ha1 & Ha2)]; [now left | right].
      rewrite Hr. now split.
    - intros epoch tr vr l w0 r w' (_ & Hb) E.
      destruct (after_loops_world args epoch tr vr l w0)
        as (w2 & E' & Hkeep & Hsave & Hfile).
      rewrite E' in E. inversion E; subst r w'.
      destruct (after_loops_locals_store args epoch (ckpt_path args epoch)
                  (r_epoch_loss vr) l) as (_ & Hv & _ & Hk).
      destruct (after_loops_locals_rules args epoch (ckpt_path args epoch)
                  (r_epoch_loss vr) l) as (_ & _ & _ & Hhist).
      split.
      + right. split; [exact Hfile |]. now rewrite Hv, Hhist.
      + intros c0 Hq. rewrite Hk in Hq.
        destruct ((use_best args || early_stopping args)
                  && loss_lt (r_epoch_loss vr) (best_val_loss l)
                  || (epoch =? num_epochs args - 1) && negb (use_best args))
          eqn:Hany.
        * inversion Hq; subst c0. apply Hsave. rewrite ?Hany. reflexivity.
        * apply Hkeep. now apply Hb. }
  destruct HI as (Ha & Hb).
  assert (Hne : per_epoch_val_losses lf <> []).
  { rewrite (@range_cons 1 (num_epochs args + 1)) in Hrun by lia.
    apply for_epochs_cons_inv in Hrun. destruct Hrun as (v & w2 & Hrun).
    cbn zeta in Hrun.
    destruct (after_loops_locals_rules args 1 (ckpt_path args 1) v
                locals_init) as (_ & _ & _ & Hhist).
    destruct Hrun as [(_ & ->) | (_ & Hrun)].
    - rewrite Hhist. intros H. now apply app_eq_nil in H.
    - apply (for_epochs_keeps C (fun l => per_epoch_val_losses l <> [])
               args ns) with (epochs := range (1 + 1) (num_epochs args + 1))
        (w := w2) (wf := wf) in Hrun; [exact Hrun | |].
      + intros epoch v0 l0 _.
        destruct (after_loops_locals_rules args epoch (ckpt_path args epoch)
                    v0 l0) as (_ & _ & _ & Hh).
        rewrite Hh. intros H. now apply app_eq_nil in H.
      + rewrite Hhist. intros H. now apply app_eq_nil in H. }
  destruct Ha as [Ha | (Hfile & Hval)]; [congruence |].
  split; [exact Hfile |]. split; [exact Hval |].
  intros Hto Hdir c l Hbest.
  unfold choose_checkpoint. rewrite Hto, Hdir. cbn [negb].
  rewrite Hfile, Hbest.
  assert (Hex : file_get (ckpt_files wf) c <> None).
  { apply Hb. unfold best_ckpt_of in Hbest.
    destruct (dict_get (run_info lf) "best_ckpt") as [[| | s] |];
      try discriminate.
    now inversion Hbest. }
  destruct (file_get (ckpt_files wf) c); [reflexivity | congruence].
Qed.

End FileProperties.

(** ** The test block when it runs *)

Section TestProperties.

Context {Feature Params Sharded : Type}.
Variable C : @Collaborators Feature Params Sharded.


End TestProperties.

(** ** The output directory and the defaults of [main] *)


Lemma path_join_inj (dir a b : string) :
  path_join dir a = path_join dir b -> a = b.
Proof.
  unfold path_join. induction dir as [| ch dir IH]; simpl; intros H.
  - now inversion H.
  - inversion H. now apply IH.
Qed.





(** X21. Building the parser reads four environment variables while the
    defaults are set, whatever the command line holds: it succeeds exactly
    when [PPI_TRAIN_SHARDED], [PPI_VAL_SHARDED], [PPI_TEST_SHARDED] and
    [MODEL_DIR] are all set, and otherwise raises [KeyError] on one of them
    that is missing. *)
Theorem create_train_parser_needs_environment
    (environ : list (string * string)) (seed : Z) :
  let required :=
    ["PPI_TRAIN_SHARDED"; "PPI_VAL_SHARDED"; "PPI_TEST_SHARDED";
     "MODEL_DIR"]%string in
  ((exists ns, create_train_parser environ seed = Ok ns)
   <-> forall k, In k required -> file_get environ k <> None)
  /\ (forall e, create_train_parser environ seed = Err e ->
        exists k, e = KeyError k /\ In k required
                  /\ file_get environ k = None).
Proof.
  intros required. unfold create_train_parser, environ_get.
  destruct (file_get environ "PPI_TRAIN_SHARDED") eqn:E1;
    [destruct (file_get environ "PPI_VAL_SHARDED") eqn:E2;
     [destruct (file_get environ "PPI_TEST_SHARDED") eqn:E3;
      [destruct (file_get environ "MODEL_DIR") eqn:E4 | ] | ] | ].
  - split; [| intros e H; discriminate H]. split.
    + intros _ k Hk. unfold required in Hk.
      repeat (destruct Hk as [<- | Hk]; [congruence |]). contradiction.
    + intros _. eexists. reflexivity.
  - split.
    + split; [intros (ns & H); discriminate H |].
      intros H. exfalso. apply (H "MODEL_DIR"%string); [| exact E4].
      unfold required. simpl. tauto.
    + intros e H. inversion H. exists "MODEL_DIR"%string.
      unfold required. simpl. tauto.
  - split.
    + split; [intros (ns & H); discriminate H |].
      intros H. exfalso. apply (H "PPI_TEST_SHARDED"%string); [| exact E3].
      unfold required. simpl. tauto.
    + intros e H. inversion H. exists "PPI_TEST_SHARDED"%string.
      unfold required. simpl. tauto.
  - split.
    + split; [intros (ns & H); discriminate H |].
      intros H. exfalso. apply (H "PPI_VAL_SHARDED"%string); [| exact E2].
      unfold required. simpl. tauto.
    + intros e H. inversion H. exists "PPI_VAL_SHARDED"%string.
      unfold required. simpl. tauto.
  - split.
    + split; [intros (ns & H); discriminate H |].
      intros H. exfalso. apply (H "PPI_TRAIN_SHARDED"%string); [| exact E1].
      unfold required. simpl. tauto.
    + intros e H. inversion H. exists "PPI_TRAIN_SHARDED"%string.
      unfold required. simpl. tauto.
Qed.

Section DefaultProperties.

Context {Feature Params Sharded : Type}.
Variable C : @Collaborators Feature Params Sharded.

(** X22. With the defaults of the parser the test block cannot reach its
    loop: the training counts are valid (140 examples per structure), but
    the default cap for testing is -1, so the count of the test split fails
    its assertion and the run raises after training, before any test pass. *)
Theorem default_options_fail_at_test (environ : list (string * string))
    (seed : Z) (ns : Namespace) (load : string -> Sharded)
    (fs : list string) (dir : string) (args : @Args Sharded) :
  create_train_parser environ seed = Ok ns ->
  main_args load ns fs dir = Ok args ->
  test_only args = false
  /\ train_val_num_structures C args
     = Ok (get_num_keyed C (load (ns_train_sharded ns)) * (1 * (70 * (1 + 1))),
           get_num_keyed C (load (ns_val_sharded ns)) * (1 * (70 * (1 + 1))))
  /\ test_num_structures C args = Err AssertionError
  /\ forall l (w : @World Params),
     exists e,
       fst (testing C args l w) = Err e
       /\ loop_calls (events (snd (testing C args l w)))
          = loop_calls (events w)
       /\ result_files (snd (testing C args l w)) = result_files w.
Proof.
  intros Hparse Hmain.
  unfold create_train_parser in Hparse.
  destruct (environ_get environ "PPI_TRAIN_SHARDED"); [| discriminate].
  destruct (environ_get environ "PPI_VAL_SHARDED"); [| discriminate].
  destruct (environ_get environ "PPI_TEST_SHARDED"); [| discriminate].
  destruct (environ_get environ "MODEL_DIR"); [| discriminate].
  inversion Hparse; subst ns. clear Hparse.
  unfold main_args in Hmain. cbn in Hmain. inversion Hmain as [Hargs].
  clear Hmain.
  rewrite ?Hargs.
  assert (Hcap : test_num_structures C args = Err AssertionError).
  { apply test_num_structures_assert. right. left.
    rewrite <- Hargs. cbn. lia. }
  split; [now rewrite <- Hargs |]. split; [now rewrite <- Hargs |].
  split; [exact Hcap |].
  intros l w.
  destruct (testing_asserts C args Hcap l w) as (e & H1 & H2 & H3 & _).
  exists e. repeat split; assumption.
Qed.

End DefaultProperties.

(** ** The small instance, again *)

Lemma test_batches_partition_dataset_witness :
  List.concat
    (consumed (batch_dataset_generator Toy.collab
                 (dataset_generator Toy.collab Toy.test_generator)
                 (Toy.args 1 false 4) true) 7 0)
  = dataset_generator Toy.collab Toy.test_generator.
Proof.
  apply (@test_batches_partition_dataset _ _ _ Toy.collab (Toy.args 1 false 4)
           (dataset_generator Toy.collab Toy.test_generator)).
  simpl. lia.
Defined.

Lemma shuffled_batches_never_end_witness :
  exists b,
    batch_dataset_generator Toy.collab
      (dataset_generator Toy.collab Toy.val_generator) (toy_shuffle_args 4)
      false 5 = Some b
    /\ List.length b = 4%nat.
Proof.
  destruct (@shuffled_batches_never_end _ _ _ Toy.collab (toy_shuffle_args 4)
              (dataset_generator Toy.collab Toy.val_generator)
              ltac:(simpl; lia) eq_refl ltac:(discriminate) 5%nat)
    as (b & H1 & H2 & _).
  exists b. split; assumption.
Defined.


Lemma pass_steps_optimizer_once_per_batch_witness :
  exists st,
    loop_run Toy.collab (Toy.args 1 false 4)
      (dataset_generator Toy.collab Toy.test_generator) test 10 0 = Ok (2, st)
    /\ t_n st = 2%nat.
Proof.
  destruct (@pass_steps_optimizer_once_per_batch _ _ _ Toy.collab
              (Toy.args 1 false 4)
              (dataset_generator Toy.collab Toy.test_generator) test 10 0
              ltac:(simpl; lia))
    as (st & H1 & H2).
  exists st. split; [exact H1 | exact H2].
Defined.

(** Three examples, ten planned, batches of four: twelve collected. *)
Lemma shuffled_pass_runs_all_batches_witness :
  exists p' st,
    loop_run Toy.collab (toy_shuffle_args 4)
      (map Toy.example (range 0 3)) val 10 0 = Ok (p', st)
    /\ t_n st = 3%nat
    /\ List.length (r_structures (loop_result st)) = 12%nat.
Proof.
  destruct (@shuffled_pass_runs_all_batches _ _ _ Toy.collab
              (toy_shuffle_args 4) (map Toy.example (range 0 3)) val 10 0
              ltac:(simpl; lia) eq_refl ltac:(discriminate)
              ltac:(discriminate))
    as (p' & st & H1 & H2 & H3 & _).
  exists p', st. split; [exact H1 |]. split; [exact H2 | exact H3].
Defined.

Lemma empty_dataset_pass_witness :
  sess (snd (__loop Toy.collab (Toy.args 1 false 4)
               {| g_sharded := 0; g_grid_config := Toy.grid false;
                  g_shuffle := false; g_repeat := 1;
                  g_max_num_ensembles := None; g_testing := true;
                  g_use_shard_nums := None; g_random_seed := 1 |}
               test 10 Toy.world))
  = sess Toy.world.
Proof.
  apply (@empty_dataset_pass _ _ _ Toy.collab (Toy.args 1 false 4)
           {| g_sharded := 0; g_grid_config := Toy.grid false;
              g_shuffle := false; g_repeat := 1;
              g_max_num_ensembles := None; g_testing := true;
              g_use_shard_nums := None; g_random_seed := 1 |}
           test 10 Toy.world ltac:(simpl; lia) eq_refl (or_introl eq_refl)).
Defined.

Lemma toy_model_is_aligned :
  forall (q : Z) (fd : @Feed unit),
    List.length (logit (conv_model Toy.collab q fd))
    = List.length (label_placeholder fd)
    /\ List.length (pred (conv_model Toy.collab q fd))
       = List.length (label_placeholder fd)
    /\ List.length (loss (conv_model Toy.collab q fd))
       = List.length (label_placeholder fd).
Proof.
  intros q fd. cbn. now rewrite !length_map.
Qed.

Lemma pass_columns_are_aligned_witness :
  exists p' st,
    loop_run Toy.collab (Toy.args 1 false 4)
      (dataset_generator Toy.collab Toy.test_generator) test 10 0 = Ok (p', st)
    /\ List.length (r_logits (loop_result st))
       = List.length (r_structures (loop_result st)).
Proof.
  destruct (@pass_columns_are_aligned _ _ _ Toy.collab (Toy.args 1 false 4)
              (dataset_generator Toy.collab Toy.test_generator) test 10 0
              toy_model_is_aligned ltac:(simpl; lia))
    as (p' & st & H1 & H2 & _).
  exists p', st. split; [exact H1 | exact H2].
Defined.

Lemma toy_loss_nonneg :
  forall (q : Z) (fd : @Feed unit) x,
    In x (loss (conv_model Toy.collab q fd)) -> (0 <= x)%Q.
Proof.
  intros q fd x Hx. cbn in Hx. apply in_map_iff in Hx.
  destruct Hx as (y & <- & _). unfold Toy.loss_after.
  destruct (q <? 2); [discriminate |]. destruct (q <? 4); discriminate.
Qed.

Lemma toy_accuracy_in_range :
  forall (q : Z) (fd : @Feed unit) x,
    In x (accuracy (conv_model Toy.collab q fd)) -> (0 <= x <= 1)%Q.
Proof.
  intros q fd x Hx. cbn in Hx. apply in_map_iff in Hx.
  destruct Hx as (y & <- & _).
  destruct (y =? 0); split; discriminate.
Qed.

Lemma running_means_stay_in_range_witness :
  let st :=
    snd (for_batches Toy.collab (Toy.args 1 false 1) val
           (batch_dataset_generator Toy.collab
              (dataset_generator Toy.collab Toy.val_generator)
              (Toy.args 1 false 1) false) 2 0 0 loop_init) in
  (0 <= epoch_acc st <= 1)%Q.
Proof.
  intros st.
  apply (@running_means_stay_in_range _ _ _ Toy.collab (Toy.args 1 false 1)
           val _ 2%nat 0 toy_loss_nonneg toy_accuracy_in_range).
Defined.

(** One positive and two negatives, each with cross entropy 1/2, under a
    ratio of 3. *)
Lemma reweighted_loss_mean_is_ratio_free_witness :
  (np_mean (conv_model_loss (fun x => x) (fun x => 1 - x)
              [1; 0; 0]%Z [1 # 2; 1 # 2; 1 # 2] 3%Z) == 1 # 2)%Q.
Proof.
  apply (@reweighted_loss_mean_is_ratio_free (fun x => x) (fun x => 1 - x)%Q
           [1; 0; 0] [1 # 2; 1 # 2; 1 # 2]%Q 3 (1 # 2)%Q).
  - lia.
  - discriminate.
  - repeat constructor; (left; split; reflexivity) || (right; split; reflexivity).
Defined.

Lemma conv_layers_shapes_witness :
  Z.of_nat (List.length (max_pool_positions (conv_layers 3 2))) = 3 + 3 mod 2.
Proof.
  apply (@conv_layers_shapes 3 2). lia.
Defined.

Lemma best_loss_is_least_recorded_witness :
  exists lf wf m,
    for_epochs Toy.collab (Toy.args 5 true 2) (2, 2) (range 1 6) locals_init
               Toy.world = (Ok lf, wf)
    /\ best_val_loss lf = Fin m
    /\ forall v, In v (per_epoch_val_losses lf) -> (m <= v)%Q.
Proof.
  eexists. eexists.
  match goal with
  | |- exists m, ?run = (Ok ?lf, ?wf) /\ _ =>
      assert (Hrun : run = (Ok lf, wf)) by (vm_compute; reflexivity)
  end.
  destruct (@best_loss_is_least_recorded _ _ _ Toy.collab (Toy.args 5 true 2)
              (2, 2) (range 1 6) Toy.world _ _ eq_refl Hrun
              ltac:(discriminate))
    as (m & H1 & _ & H3 & _).
  exists m. split; [exact Hrun |]. split; [exact H1 | exact H3].
Defined.


Lemma early_stopping_runs_to_first_rise_witness :
  exists lf wf,
    training Toy.collab (Toy.args 5 true 2) Toy.world = (Ok lf, wf)
    /\ (2 <= List.length (per_epoch_val_losses lf))%nat.
Proof.
  eexists. eexists.
  match goal with
  | |- ?run = (Ok ?lf, ?wf) /\ _ =>
      assert (Hrun : run = (Ok lf, wf)) by (vm_compute; reflexivity)
  end.
  split; [exact Hrun |].
  apply (@early_stopping_runs_to_first_rise _ _ _ Toy.collab
           (Toy.args 5 true 2) Toy.world _ _ eq_refl Hrun).
  simpl. lia.
Defined.

Lemma ckpt_bound_iff_witness :
  exists lf wf,
    training Toy.collab (Toy.args 2 false 2) Toy.world = (Ok lf, wf)
    /\ ckpt lf <> None.
Proof.
  eexists. eexists.
  match goal with
  | |- ?run = (Ok ?lf, ?wf) /\ _ =>
      assert (Hrun : run = (Ok lf, wf)) by (vm_compute; reflexivity)
  end.
  split; [exact Hrun |].
  apply (@ckpt_bound_iff _ _ _ Toy.collab (Toy.args 2 false 2) Toy.world _ _
           ltac:(simpl; lia) Hrun).
  right; right; right. simpl. lia.
Defined.

Lemma no_epoch_no_checkpoint_witness :
  train_model Toy.collab (Toy.args 0 false 2) Toy.world
  = (Err (UnboundLocalError "ckpt"), set_sess 0 Toy.world).
Proof.
  apply (@no_epoch_no_checkpoint _ _ _ Toy.collab (Toy.args 0 false 2)
           Toy.world eq_refl ltac:(simpl; lia) ltac:(simpl; lia)
           ltac:(simpl; lia)).
Defined.

Lemma chosen_checkpoint_exists_witness :
  exists lf wf p,
    training Toy.collab (Toy.args 2 false 2) Toy.world = (Ok lf, wf)
    /\ file_get (ckpt_files wf) "out/model-ckpt-1" = Some p.
Proof.
  eexists. eexists.
  match goal with
  | |- exists p, ?run = (Ok ?lf, ?wf) /\ _ =>
      assert (Hrun : run = (Ok lf, wf)) by (vm_compute; reflexivity)
  end.
  destruct (@chosen_checkpoint_exists _ _ _ Toy.collab (Toy.args 2 false 2)
              Toy.world _ _ "out/model-ckpt-1" eq_refl Hrun
              ltac:(vm_compute; reflexivity))
    as (p & H1 & _).
  exists p. split; [exact Hrun | exact H1].
Defined.

Lemma run_info_round_trip_witness :
  exists lf wf,
    training Toy.collab (Toy.args 2 false 2) Toy.world = (Ok lf, wf)
    /\ file_get (run_info_files wf) "out/run_info.json" = Some (run_info lf).
Proof.
  eexists. eexists.
  match goal with
  | |- ?run = (Ok ?lf, ?wf) /\ _ =>
      assert (Hrun : run = (Ok lf, wf)) by (vm_compute; reflexivity)
  end.
  split; [exact Hrun |].
  apply (@run_info_round_trip _ _ _ Toy.collab (Toy.args 2 false 2)
           (Toy.args 2 false 2) Toy.world _ _ ltac:(simpl; lia) Hrun).
Defined.


Lemma default_options_fail_at_test_witness :
  exists ns args,
    create_train_parser
      [("PPI_TRAIN_SHARDED", "train@2"); ("PPI_VAL_SHARDED", "val@2");
       ("PPI_TEST_SHARDED", "test@2"); ("MODEL_DIR", "models")]%string 7
    = Ok ns
    /\ main_args (fun path => Z.of_nat (String.length path)) ns []
                 "models/0" = Ok args
    /\ test_num_structures Toy.collab args = Err AssertionError.
Proof.
  eexists. eexists.
  match goal with
  | |- ?parse = Ok ?ns /\ ?build = Ok ?args /\ _ =>
      assert (Hparse : parse = Ok ns) by reflexivity;
      assert (Hmain : build = Ok args) by reflexivity
  end.
  split; [exact Hparse |]. split; [exact Hmain |].
  apply (@default_options_fail_at_test _ _ _ Toy.collab _ _ _ _ _ _ _
           Hparse Hmain).
Defined.

(** ** The files of every epoch *)

Section PerEpochProperties.

Context {Feature Params Sharded : Type}.
Variable C : @Collaborators Feature Params Sharded.

Lemma __loop_result_files (args : @Args Sharded) g mode n (w : @World Params) :
  result_files (snd (__loop C args g mode n w)) = result_files w.
Proof.
  unfold __loop, bind, modify. cbn [sess record].
  destruct (loop_run C args _ mode n (sess w)) as [[p st] | e]; reflexivity.
Qed.

(** The result tables after the statements that follow the loops. *)
Lemma after_loops_results (args : @Args Sharded) epoch tr vr l
    (w : @World Params) :
  exists w',
    after_loops args epoch tr vr l w =
      (Ok (after_loops_locals args epoch (ckpt_path args epoch)
             (r_epoch_loss vr) l), w')
    /\ (forall p, file_get (result_files w) p <> None ->
                  file_get (result_files w') p <> None)
    /\ file_get (result_files w')
         (path_join (output_dir args)
            ("train_result-" ++ format_int epoch ++ ".pkl"))
       = Some (data_frame (r_structures tr) (r_labels tr) (r_preds tr)
                          (r_logits tr))
    /\ file_get (result_files w')
         (path_join (output_dir args)
            ("val_result-" ++ format_int epoch ++ ".pkl"))
       = Some (data_frame (r_structures vr) (r_labels vr) (r_preds vr)
                          (r_logits vr)).
Proof.
  assert (Hne : path_join (output_dir args)
                  ("train_result-" ++ format_int epoch ++ ".pkl")
                <> path_join (output_dir args)
                     ("val_result-" ++ format_int epoch ++ ".pkl")).
  { intros E. apply path_join_inj in E. discriminate E. }
  apply String.eqb_neq in Hne. cbn -[file_get path_join] in Hne.
  unfold after_loops, after_loops_locals, ckpt_path, _save,
    __update_and_write_run_info, __stats, bind, modify, ret.
  cbn -[file_get path_join].
  destruct (use_best args), (early_stopping args),
    (loss_lt (r_epoch_loss vr) (best_val_loss l)),
    (epoch =? num_epochs args - 1), (save_all_ckpts args);
    cbn -[file_get path_join];
    destruct (loss_ge (r_epoch_loss vr) (prev_val_loss l));
    cbn -[file_get path_join]; eexists; (split; [reflexivity |]);
    cbn -[file_get path_join];
    (split; [intros p Hp; repeat apply file_get_cons_keeps; exact Hp |]);
    (split; [| apply file_get_cons_same]);
    cbn [file_get]; rewrite Hne; apply file_get_cons_same.
Qed.

(** The first epoch of a completed loop, with the worlds it goes through. *)
Lemma for_epochs_cons_inv_world (args : @Args Sharded) ns epoch rest l
    (w : @World Params) lf wf :
  for_epochs C args ns (epoch :: rest) l w = (Ok lf, wf) ->
  exists g1 g2 tr vr w2 r w3,
    ckpt_files w2 = ckpt_files w /\ result_files w2 = result_files w
    /\ snd (__loop C args g2 val (snd ns)
              (snd (__loop C args g1 train (fst ns) w))) = w2
    /\ after_loops args epoch tr vr l w2 = (Ok r, w3)
    /\ ((snd r = true /\ lf = fst r /\ wf = w3)
        \/ (snd r = false
            /\ for_epochs C args ns rest (fst r) w3 = (Ok lf, wf))).
Proof.
  intros H. cbn [for_epochs] in H. apply bind_inv_ok in H.
  destruct H as (r & w3 & Hbody & H).
  unfold epoch_body in Hbody.
  apply bind_inv_ok in Hbody. destruct Hbody as (tr & w1 & E1 & Hbody).
  apply bind_inv_ok in Hbody. destruct Hbody as (vr & w2 & E2 & E3).
  match type of E1 with
  | __loop _ _ ?g1 _ _ _ = _ =>
      match type of E2 with
      | __loop _ _ ?g2 _ _ _ = _ => exists g1, g2, tr, vr, w2, r, w3
      end
  end.
  match type of E1 with
  | __loop _ _ ?g1 _ _ _ = _ =>
      pose proof (__loop_files C args g1 train (fst ns) w) as (F1 & _);
      pose proof (__loop_result_files args g1 train (fst ns) w) as R1
  end.
  match type of E2 with
  | __loop _ _ ?g2 _ _ _ = _ =>
      pose proof (__loop_files C args g2 val (snd ns) w1) as (F2 & _);
      pose proof (__loop_result_files args g2 val (snd ns) w1) as R2
  end.
  rewrite E1 in F1, R1 |- *. cbn [snd] in F1, R1 |- *.
  rewrite E2 in F2, R2 |- *. cbn [snd] in F2, R2 |- *.
  split; [congruence |]. split; [congruence |].
  split; [reflexivity |]. split; [exact E3 |].
  destruct (snd r).
  - left. inversion H. now repeat split.
  - right. now split.
Qed.

(** The epochs of a completed loop over [a, a+1, ...] are numbered by the
    recorded losses, and each has left its files. *)
Lemma for_epochs_leaves_files (args : @Args Sharded) ns (Q : Z -> @World Params -> Prop) :
  (forall e w w', ckpt_files w' = ckpt_files w ->
                  result_files w' = result_files w -> Q e w -> Q e w') ->
  (forall e epoch tr vr l w r w',
     after_loops args epoch tr vr l w = (Ok r, w') -> Q e w -> Q e w') ->
  (forall epoch tr vr l w r w',
     after_loops args epoch tr vr l w = (Ok r, w') -> Q epoch w') ->
  forall n a l w lf wf,
    for_epochs C args ns (range a (a + Z.of_nat n)) l w = (Ok lf, wf) ->
    Z.of_nat (List.length (per_epoch_val_losses l)) = a - 1 ->
    (forall e, 1 <= e < a -> Q e w) ->
    forall e, 1 <= e <= Z.of_nat (List.length (per_epoch_val_losses lf)) ->
              Q e wf.
Proof.
  intros Hloop Hkeep Hnew.
  induction n as [| n IH]; intros a l w lf wf Hrun Hlen Hbefore e He.
  - rewrite range_nil in Hrun by lia. inversion Hrun; subst.
    apply Hbefore. lia.
  - rewrite (@range_cons a (a + Z.of_nat (S n))) in Hrun by lia.
    apply for_epochs_cons_inv_world in Hrun.
    destruct Hrun as (g1 & g2 & tr & vr & w2 & r & w3 & F & R & _ & E3 & Hrun).
    destruct (after_loops_run args a tr vr l w2) as (w3' & E3' & _).
    rewrite E3' in E3. inversion E3; subst r w3'. clear E3.
    destruct (after_loops_locals_rules args a (ckpt_path args a)
                (r_epoch_loss vr) l) as (_ & _ & _ & Hhist).
    assert (Hall : forall e0, 1 <= e0 < a + 1 -> Q e0 w3).
    { intros e0 He0. destruct (Z.eq_dec e0 a) as [-> | Hne].
      - exact (Hnew _ _ _ _ _ _ _ E3').
      - apply (Hkeep _ _ _ _ _ _ _ _ E3'). apply (Hloop _ w); [exact F | exact R |].
        apply Hbefore. lia. }
    assert (Hlen' : Z.of_nat (List.length (per_epoch_val_losses
                      (fst (after_loops_locals args a (ckpt_path args a)
                              (r_epoch_loss vr) l)))) = a + 1 - 1).
    { rewrite Hhist, length_app. cbn [List.length]. lia. }
    destruct Hrun as [(_ & -> & ->) | (_ & Hrun)].
    + apply Hall. lia.
    + replace (a + Z.of_nat (S n)) with (a + 1 + Z.of_nat n) in Hrun by lia.
      exact (IH _ _ _ _ _ Hrun Hlen' Hall e He).
Qed.

(** An epoch loop records at most one loss per epoch. *)
Lemma for_epochs_losses_bound (args : @Args Sharded) ns epochs l
    (w : @World Params) lf wf :
  for_epochs C args ns epochs l w = (Ok lf, wf) ->
  (List.length (per_epoch_val_losses lf)
   <= List.length (per_epoch_val_losses l) + List.length epochs)%nat.
Proof.
  revert l w. induction epochs as [| ep rest IH]; intros l w H.
  - inversion H. lia.
  - apply (for_epochs_cons_inv C) in H. destruct H as (v & w2 & H).
    cbn zeta in H.
    destruct (after_loops_locals_rules args ep (ckpt_path args ep) v l)
      as (_ & _ & _ & Hh).
    destruct H as [(_ & ->) | (_ & H)].
    + rewrite Hh, length_app. cbn. lia.
    + apply IH in H. rewrite Hh, length_app in H. cbn in H |- *. lia.
Qed.

(** X23. After a completed training block, the executed epochs are the
    epochs 1 to k, k being the number of recorded validation losses, and
    each of them has left its two result tables [train_result-e.pkl] and
    [val_result-e.pkl]; under [save_all_ckpts] each has also left its
    checkpoint [model-ckpt-e]. *)
Theorem every_epoch_leaves_its_files (args : @Args Sharded)
    (w : @World Params) lf wf :
  training C args w = (Ok lf, wf) ->
  forall e,
    1 <= e <= Z.of_nat (List.length (per_epoch_val_losses lf)) ->
    e <= num_epochs args
    /\ file_get (result_files wf)
         (path_join (output_dir args)
            ("train_result-" ++ format_int e ++ ".pkl")) <> None
    /\ file_get (result_files wf)
         (path_join (output_dir args)
            ("val_result-" ++ format_int e ++ ".pkl")) <> None
    /\ (save_all_ckpts args = true ->
        file_get (ckpt_files wf) (ckpt_path args e) <> None).
Proof.
  intros Hrun e He. unfold training in Hrun.
  apply bind_inv_ok in Hrun. destruct Hrun as (ns & w1 & Hlift & Hrun).
  unfold lift in Hlift. inversion Hlift; subst w1.
  pose (Q := fun (e0 : Z) (w0 : @World Params) =>
               file_get (result_files w0)
                 (path_join (output_dir args)
                    ("train_result-" ++ format_int e0 ++ ".pkl")) <> None
               /\ file_get (result_files w0)
                    (path_join (output_dir args)
                       ("val_result-" ++ format_int e0 ++ ".pkl")) <> None
               /\ (save_all_ckpts args = true ->
                   file_get (ckpt_files w0) (ckpt_path args e0) <> None)).
  assert (Hk : (List.length (per_epoch_val_losses lf)
                <= Z.to_nat (num_epochs args))%nat).
  { pose proof (for_epochs_losses_bound args ns _ _ _ Hrun) as G.
    unfold range in G. rewrite length_map, length_seq in G.
    cbn [locals_init per_epoch_val_losses List.length] in G. lia. }
  split; [lia |].
  replace (num_epochs args + 1)
    with (1 + Z.of_nat (Z.to_nat (num_epochs args + 1 - 1))) in Hrun.
  2: { destruct (Z.le_gt_cases 0 (num_epochs args)); [lia |].
       exfalso.
       replace (Z.to_nat (num_epochs args)) with 0%nat in Hk by lia. lia. }
  apply (for_epochs_leaves_files args ns Q) with (e := e) in Hrun;
    try exact He; try reflexivity.
  - exact Hrun.
  - intros e0 w0 w' F R (H1 & H2 & H3). unfold Q. rewrite F, R.
    now repeat split.
  - intros e0 epoch tr vr l w0 r w' E (H1 & H2 & H3).
    destruct (after_loops_results args epoch tr vr l w0)
      as (w2 & E' & Hres & _).
    destruct (after_loops_world args epoch tr vr l w0)
      as (w3 & E'' & Hck & _).
    rewrite E' in E''. inversion E''; subst w3.
    rewrite E' in E. inversion E; subst r w'.
    unfold Q. split; [now apply Hres |]. split; [now apply Hres |].
    intros Hsa. apply Hck. now apply H3.
  - intros epoch tr vr l w0 r w' E.
    destruct (after_loops_results args epoch tr vr l w0)
      as (w2 & E' & _ & Ht & Hv).
    destruct (after_loops_world args epoch tr vr l w0)
      as (w3 & E'' & _ & Hsave & _).
    rewrite E' in E''. inversion E''; subst w3.
    rewrite E' in E. inversion E; subst r w'.
    unfold Q. rewrite Ht, Hv. split; [discriminate |].
    split; [discriminate |].
    intros Hsa. apply Hsave. rewrite Hsa. now rewrite orb_true_r.
  - intros e0 He0. lia.
Qed.

End PerEpochProperties.

Lemma every_epoch_leaves_its_files_witness :
  exists lf wf,
    training Toy.collab (toy_flag_args 3 false false true) Toy.world
    = (Ok lf, wf)
    /\ file_get (ckpt_files wf) "out/model-ckpt-3" <> None.
Proof.
  eexists. eexists.
  match goal with
  | |- ?run = (Ok ?lf, ?wf) /\ _ =>
      assert (Hrun : run = (Ok lf, wf)) by (vm_compute; reflexivity)
  end.
  split; [exact Hrun |].
  apply (@every_epoch_leaves_its_files _ _ _ Toy.collab
           (toy_flag_args 3 false false true) Toy.world _ _ Hrun 3).
  - simpl. lia.
  - reflexivity.
Defined.
